(** * mongo-task-scheduler: the lease protocol of [src/task-scheduler.ts]

    A shallow embedding of the [TaskScheduler] class: the Task Record, the
    MongoDB collection it lives in, the scheduler object (worker registry,
    timer handle, options) and every method of the class, followed by the
    properties of the declaration path, the claim, the renewal and the
    settlement of a task.

    Conventions.
    - A [Date] is its [valueOf()]: milliseconds since the epoch, in [Z].
    - An optional field ([receivedTime?: Date]) is an [option].
    - An [async] method is a function of the [World] that returns how its
      promise settles, together with the world it leaves behind.
    - The synchronous clock reads of one method ([new Date()], [Date.now()],
      [moment()]) are taken at the same instant, [clock] of the world.
    - [console.log] lines are not modelled. *)

From Stdlib Require Import ZArith String List Lia.
From stdpp Require Import gmap strings list fin_maps.

Local Open Scope string_scope.
Local Open Scope list_scope.
Local Open Scope Z_scope.

(** ** Data model *)

Definition Date := Z.

Record Error := { message : string }.

(** [TaskExecutionLogEntry]: the common fields and one of the two variants. *)
Inductive TaskExecutionLogEntry :=
| ErroredEntry (received : Date) (processingTime : Z)
               (erroredTime : Date) (errorMessage : string)
| CompletedEntry (received : Date) (processingTime : Z)
                 (completedTime : Date) (output : option string).

Record TaskDefinition := {
  _id : string;
  cronSchedule : string;
  nextScheduledTime : Date;
  receivedTime : option Date;
  lastErroredTime : option Date;
  lastCompletedTime : option Date;
  executionLog : option (list TaskExecutionLogEntry)
}.

(** The update operators the class sends to MongoDB, one field each. *)
Module Update.

Definition set_cronSchedule (c : string) (d : TaskDefinition) :=
  {| _id := _id d; cronSchedule := c;
     nextScheduledTime := nextScheduledTime d; receivedTime := receivedTime d;
     lastErroredTime := lastErroredTime d;
     lastCompletedTime := lastCompletedTime d;
     executionLog := executionLog d |}.

Definition set_nextScheduledTime (t : Date) (d : TaskDefinition) :=
  {| _id := _id d; cronSchedule := cronSchedule d;
     nextScheduledTime := t; receivedTime := receivedTime d;
     lastErroredTime := lastErroredTime d;
     lastCompletedTime := lastCompletedTime d;
     executionLog := executionLog d |}.

(** [$set: {receivedTime: t}] with [Some t], [$unset: {receivedTime: true}]
    with [None]. *)
Definition put_receivedTime (r : option Date) (d : TaskDefinition) :=
  {| _id := _id d; cronSchedule := cronSchedule d;
     nextScheduledTime := nextScheduledTime d; receivedTime := r;
     lastErroredTime := lastErroredTime d;
     lastCompletedTime := lastCompletedTime d;
     executionLog := executionLog d |}.

Definition set_lastErroredTime (t : Date) (d : TaskDefinition) :=
  {| _id := _id d; cronSchedule := cronSchedule d;
     nextScheduledTime := nextScheduledTime d; receivedTime := receivedTime d;
     lastErroredTime := Some t;
     lastCompletedTime := lastCompletedTime d;
     executionLog := executionLog d |}.

Definition set_lastCompletedTime (t : Date) (d : TaskDefinition) :=
  {| _id := _id d; cronSchedule := cronSchedule d;
     nextScheduledTime := nextScheduledTime d; receivedTime := receivedTime d;
     lastErroredTime := lastErroredTime d;
     lastCompletedTime := Some t;
     executionLog := executionLog d |}.

Definition put_executionLog (l : option (list TaskExecutionLogEntry))
    (d : TaskDefinition) :=
  {| _id := _id d; cronSchedule := cronSchedule d;
     nextScheduledTime := nextScheduledTime d; receivedTime := receivedTime d;
     lastErroredTime := lastErroredTime d;
     lastCompletedTime := lastCompletedTime d;
     executionLog := l |}.

(** [$push: {executionLog: e}]: appends, creating the array when the field
    is absent. *)
Definition push_executionLog (e : TaskExecutionLogEntry) (d : TaskDefinition) :=
  put_executionLog (Some (default [] (executionLog d) ++ [e])) d.

(** [$pop: {executionLog: -1}]: removes the first element; nothing to do
    when the field is absent. *)
Definition pop_executionLog (d : TaskDefinition) :=
  put_executionLog (tail <$> executionLog d) d.

End Update.

(** ** The world outside the scheduler object *)

(** [collection] holds the documents of [db.collection(collectionName)] in
    natural (insertion) order.  [faults] is the fate of the coming store
    round trips, one entry per trip: [Some e] makes the driver reject with
    [e] and write nothing; when the list is used up every trip succeeds.
    [reported] lists the calls of [errorHandler], oldest first. *)
Record World := {
  clock : Date;
  collection : list TaskDefinition;
  faults : list (option Error);
  reported : list Error
}.

Definition set_clock (t : Date) (w : World) :=
  {| clock := t; collection := collection w;
     faults := faults w; reported := reported w |}.

Definition set_collection (c : list TaskDefinition) (w : World) :=
  {| clock := clock w; collection := c;
     faults := faults w; reported := reported w |}.

Definition set_faults (f : list (option Error)) (w : World) :=
  {| clock := clock w; collection := collection w;
     faults := f; reported := reported w |}.

Definition set_reported (r : list Error) (w : World) :=
  {| clock := clock w; collection := collection w;
     faults := faults w; reported := r |}.

(** ** Promises and async methods *)

(** [Rejected e] is a promise rejected with an [Error] object whose
    message is [message e]: the errors the class itself throws, the errors
    of the driver and of the cron parser, and a worker that throws an
    [Error].  A worker that rejects with a value that is not an [Error] is
    not represented. *)

Inductive Promise (A : Type) :=
| Fulfilled (a : A)
| Rejected (e : Error).
Arguments Fulfilled {A} a.
Arguments Rejected {A} e.

Definition Async (A : Type) := World -> Promise A * World.

Definition resolve {A} (a : A) : Async A := fun w => (Fulfilled a, w).

Definition throw {A} (e : Error) : Async A := fun w => (Rejected e, w).

(** [const x = await m; k x] inside an async method. *)
Definition await {A B} (m : Async A) (k : A -> Async B) : Async B :=
  fun w =>
    match m w with
    | (Fulfilled a, w') => k a w'
    | (Rejected e, w') => (Rejected e, w')
    end.

(** [try { return await m } catch (error) { h error }]. *)
Definition tryCatch {A} (m : Async A) (h : Error -> Async A) : Async A :=
  fun w =>
    match m w with
    | (Fulfilled a, w') => (Fulfilled a, w')
    | (Rejected e, w') => h e w'
    end.

Notation "'let!' x ':=' m 'in' k" := (await m (fun x => k))
  (at level 10, x name, m at level 100, k at level 200).

Definition now : Async Date := fun w => (Fulfilled (clock w), w).

(** ** The MongoDB collection *)

Module Mongo.

(** One round trip to the server: it consumes the next entry of [faults]. *)
Definition roundTrip : Async unit :=
  fun w =>
    match faults w with
    | Some e :: rest => (Rejected e, set_faults rest w)
    | None :: rest => (Fulfilled tt, set_faults rest w)
    | [] => (Fulfilled tt, w)
    end.

(** The first document that satisfies the filter, in natural order. *)
Definition firstMatch (q : TaskDefinition -> bool) (c : list TaskDefinition)
  : option TaskDefinition := List.find q c.

(** The first document that satisfies the filter is replaced by its
    update; a collection without a match is left as it is. *)
Fixpoint updateFirst (q : TaskDefinition -> bool)
    (u : TaskDefinition -> TaskDefinition) (c : list TaskDefinition)
  : list TaskDefinition :=
  match c with
  | [] => []
  | d :: rest => if q d then u d :: rest else d :: updateFirst q u rest
  end.

Definition byId (id : string) (d : TaskDefinition) : bool :=
  bool_decide (_id d = id).

Definition findOne (q : TaskDefinition -> bool)
  : Async (option TaskDefinition) :=
  let! _ := roundTrip in
  fun w => (Fulfilled (firstMatch q (collection w)), w).

(** [_id] is the primary key: a second document with the same [_id] is
    refused by the server. *)
Definition insertOne (d : TaskDefinition) : Async unit :=
  let! _ := roundTrip in
  fun w =>
    match firstMatch (byId (_id d)) (collection w) with
    | Some _ => (Rejected {| message := "E11000 duplicate key error" |}, w)
    | None => (Fulfilled tt, set_collection (collection w ++ [d]) w)
    end.

Definition updateOne (q : TaskDefinition -> bool)
    (u : TaskDefinition -> TaskDefinition) : Async unit :=
  let! _ := roundTrip in
  fun w => (Fulfilled tt, set_collection (updateFirst q u (collection w)) w).

(** [findOneAndUpdate(q, u, {returnDocument: 'after'})]: match and update
    in one atomic step; the updated document is returned. *)
Definition findOneAndUpdate (q : TaskDefinition -> bool)
    (u : TaskDefinition -> TaskDefinition) : Async (option TaskDefinition) :=
  let! _ := roundTrip in
  fun w => (Fulfilled (u <$> firstMatch q (collection w)),
            set_collection (updateFirst q u (collection w)) w).

End Mongo.

(** ** The scheduler object *)

(** The database that [databasePromise] resolves to; its one collection is
    [collection] of the world. *)
Definition MongoDb := unit.

Record TaskInstance := { signalProgress : Async unit }.

(** A worker returns a string or nothing, or fails; it may call
    [signalProgress] and may take time. *)
Definition TaskWorker := TaskInstance -> Async (option string).

Record TaskScheduler := {
  taskWorkers : gmap string TaskWorker;
  pollingIntervalId : option positive;
  pollingInterval : Z;
  processingTimeout : Z;
  databasePromise : option MongoDb
}.

Definition set_taskWorkers (m : gmap string TaskWorker) (this : TaskScheduler) :=
  {| taskWorkers := m; pollingIntervalId := pollingIntervalId this;
     pollingInterval := pollingInterval this;
     processingTimeout := processingTimeout this;
     databasePromise := databasePromise this |}.

Definition set_pollingIntervalId (i : option positive) (this : TaskScheduler) :=
  {| taskWorkers := taskWorkers this; pollingIntervalId := i;
     pollingInterval := pollingInterval this;
     processingTimeout := processingTimeout this;
     databasePromise := databasePromise this |}.

(** [new TaskScheduler()], before [databasePromise] is set. *)
Definition newTaskScheduler : TaskScheduler :=
  {| taskWorkers := ∅; pollingIntervalId := None;
     pollingInterval := 1000; processingTimeout := 60 * 1000;
     databasePromise := None |}.

(** [this.errorHandler(error)]: the call is recorded. *)
Definition errorHandler (error : Error) : Async unit :=
  fun w => (Fulfilled tt, set_reported (reported w ++ [error]) w).

(** The result of calling a method that is not [async] and returns a
    promise: it throws before it returns ([inl]), or returns a promise. *)
Definition Sync (A : Type) := World -> (Error + A) * World.

Section Scheduler.

(** The cron adapter: [cronParser expr ref] is
    [cronParser.parseExpression(expr, {currentDate: ref, tz}).next().toDate()],
    the first fire time of [expr] strictly after [ref] in the scheduler's
    time zone, or the error thrown for an expression that does not parse. *)
Variable cronParser : string -> Date -> Error + Date.

Definition getMongoCollection (this : TaskScheduler) : Async MongoDb :=
  match databasePromise this with
  | None => throw {| message := "No database configured" |}
  | Some db => resolve db
  end.

Definition findTask (this : TaskScheduler) (id : string)
  : Async (option TaskDefinition) :=
  let! _ := getMongoCollection this in
  Mongo.findOne (Mongo.byId id).

(** [setInterval(this.poll, this.pollingInterval)] hands back a timer id,
    which is truthy. *)
Definition startPolling (this : TaskScheduler) : TaskScheduler :=
  match pollingIntervalId this with
  | None => set_pollingIntervalId (Some 1%positive) this
  | Some _ => this
  end.

Definition stopPolling (this : TaskScheduler) : TaskScheduler :=
  match pollingIntervalId this with
  | Some _ => set_pollingIntervalId None this
  | None => this
  end.

Definition updateTask (this : TaskScheduler) (task : TaskDefinition)
    (update : TaskDefinition -> TaskDefinition) : Async unit :=
  let! _ := getMongoCollection this in
  let! _ := Mongo.updateOne (Mongo.byId (_id task)) update in
  if (10 <=? length (default [] (executionLog task)))%nat
  then Mongo.updateOne (Mongo.byId (_id task)) Update.pop_executionLog
  else resolve tt.

Definition insertTask (this : TaskScheduler) (task : TaskDefinition)
  : Async unit :=
  let! _ := getMongoCollection this in
  Mongo.insertOne task.

(** The filter of [receiveTask].  A comparison operator does not match a
    document that lacks the field. *)
Definition receiveQuery (this : TaskScheduler) (t : Date)
    (d : TaskDefinition) : bool :=
  bool_decide (_id d ∈ (map_to_list (taskWorkers this)).*1)
  && (nextScheduledTime d <? t)
  && (match receivedTime d with
      | Some r => r <? t - processingTimeout this
      | None => false
      end
      || match receivedTime d with
         | Some _ => false
         | None => true
         end).

Definition receiveTask (this : TaskScheduler) : Async (option TaskDefinition) :=
  let! t := now in
  tryCatch
    (let! _ := getMongoCollection this in
     Mongo.findOneAndUpdate (receiveQuery this t)
                            (Update.put_receivedTime (Some t)))
    (fun error => let! _ := errorHandler error in resolve None).

Definition scheduleTask (this : TaskScheduler) (id cron : string)
    (taskWorker : TaskWorker) (w : World)
  : Promise unit * TaskScheduler * World :=
  let this := set_taskWorkers (<[id := taskWorker]> (taskWorkers this)) this in
  let this := startPolling this in
  let body : Async unit :=
    let! task := findTask this id in
    let! t := now in
    match cronParser cron t with
    | inl e => throw e
    | inr nextTime =>
        match task with
        | None =>
            insertTask this
              {| _id := id; cronSchedule := cron;
                 nextScheduledTime := nextTime; receivedTime := None;
                 lastErroredTime := None; lastCompletedTime := None;
                 executionLog := None |}
        | Some task =>
            if negb (String.eqb (cronSchedule task) cron)
               || (negb (bool_decide (is_Some (receivedTime task)))
                   && (nextTime <? nextScheduledTime task))
            then updateTask this task
                   (fun d => Update.set_nextScheduledTime nextTime
                               (Update.set_cronSchedule cron d))
            else resolve tt
        end
    end in
  let '(r, w') := body w in
  (r, this, w').

(** The filter of [signalProgress]. *)
Definition renewQuery (this : TaskScheduler) (task : TaskDefinition)
    (t : Date) (d : TaskDefinition) : bool :=
  Mongo.byId (_id task) d
  && match receivedTime d with
     | Some r => t - processingTimeout this <? r
     | None => false
     end.

(** The [signalProgress] closure that [processTask] builds for [task]. *)
Definition processTask_signalProgress (this : TaskScheduler)
    (task : TaskDefinition) : Async unit :=
  let! t := now in
  let! _ := getMongoCollection this in
  let! result := Mongo.findOneAndUpdate (renewQuery this task t)
                   (Update.put_receivedTime (Some t)) in
  match result with
  | None => throw {| message := "Task expired or no longer exists" |}
  | Some _ => resolve tt
  end.

Definition processTask (this : TaskScheduler) (task : TaskDefinition)
  : Async (option string) :=
  match taskWorkers this !! _id task with
  | None =>
      throw {| message :=
                 "No worker registered for scheduled task with id: "
                 +:+ _id task |}
  | Some taskWorker =>
      taskWorker
        {| signalProgress := processTask_signalProgress this task |}
  end.

Definition releaseTask (this : TaskScheduler) (task : TaskDefinition)
    (error : Error) : Sync (Promise unit) :=
  fun w =>
    let t := clock w in
    match cronParser (cronSchedule task) (t + 1000) with
    | inl e => (inl e, w)
    | inr nextTime =>
        let received := default t (receivedTime task) in
        let '(p, w') :=
          updateTask this task
            (fun d =>
               Update.push_executionLog
                 (ErroredEntry received (t - received) t (message error))
                 (Update.set_lastErroredTime t
                    (Update.set_nextScheduledTime nextTime
                       (Update.put_receivedTime None d)))) w in
        (inr p, w')
    end.

Definition completeTask (this : TaskScheduler) (task : TaskDefinition)
    (output : option string) : Sync (Promise unit) :=
  fun w =>
    let t := clock w in
    match cronParser (cronSchedule task) (t + 1000) with
    | inl e => (inl e, w)
    | inr nextTime =>
        let received := default t (receivedTime task) in
        let '(p, w') :=
          updateTask this task
            (fun d =>
               Update.push_executionLog
                 (CompletedEntry received (t - received) t output)
                 (Update.set_lastCompletedTime t
                    (Update.set_nextScheduledTime nextTime
                       (Update.put_receivedTime None d)))) w in
        (inr p, w')
    end.

(** What [poll] does once [await this.processTask(task)] has settled with
    [r].  A promise that is returned without [await] is not covered by
    the enclosing [try]: its rejection is the rejection of [poll]. *)
Definition poll_settle (this : TaskScheduler) (task : TaskDefinition)
    (r : Promise (option string)) : Async unit :=
  fun w =>
    let catch (error : Error) (w : World) :=
      let '(_, w) := errorHandler error w in
      match releaseTask this task error w with
      | (inl e, w') => (Rejected e, w')
      | (inr p, w') => (p, w')
      end in
    match r with
    | Rejected error => catch error w
    | Fulfilled output =>
        match completeTask this task output w with
        | (inl error, w') => catch error w'
        | (inr p, w') => (p, w')
        end
    end.

Definition poll (this : TaskScheduler) : Async unit :=
  let! task := receiveTask this in
  match task with
  | None => resolve tt
  | Some task =>
      fun w =>
        let '(r, w') := processTask this task w in
        poll_settle this task r w'
  end.

End Scheduler.

(** ** One process: the timer and the cycles it starts *)

(** [startPolling] hands [poll] to [setInterval], which calls it at every
    period and drops the promise it returns.  A cycle whose worker has not
    settled yet is suspended at [await this.processTask(task)]; [inFlight]
    lists the claimed records of the suspended cycles, oldest first. *)
Record Process := {
  scheduler : TaskScheduler;
  world : World;
  inFlight : list TaskDefinition
}.

Inductive Event :=
| TimerFires
| WorkerSettles (i : nat) (r : Promise (option string))
| TimePasses (dt : N).

Section Process.

Variable cronParser : string -> Date -> Error + Date.

(** The timer calls [poll]: the cycle runs up to the call of the worker.
    Without a worker [processTask] has thrown and the cycle settles at
    once; with one the cycle is suspended until the worker settles. *)
Definition timerFires (p : Process) : Process :=
  let this := scheduler p in
  match pollingIntervalId this with
  | None => p
  | Some _ =>
      match receiveTask this (world p) with
      | (Fulfilled (Some task), w) =>
          match taskWorkers this !! _id task with
          | Some _ =>
              {| scheduler := this; world := w;
                 inFlight := inFlight p ++ [task] |}
          | None =>
              let '(r, w) := processTask this task w in
              let '(_, w) := poll_settle cronParser this task r w in
              {| scheduler := this; world := w; inFlight := inFlight p |}
          end
      | (_, w) =>
          {| scheduler := this; world := w; inFlight := inFlight p |}
      end
  end.

(** The worker of the [i]-th suspended cycle settles with [r]: the cycle
    resumes after its [await] and runs to its end. *)
Definition workerSettles (i : nat) (r : Promise (option string))
    (p : Process) : Process :=
  match inFlight p !! i with
  | None => p
  | Some task =>
      let '(_, w) := poll_settle cronParser (scheduler p) task r (world p) in
      {| scheduler := scheduler p; world := w;
         inFlight := delete i (inFlight p) |}
  end.

Definition timePasses (dt : N) (p : Process) : Process :=
  {| scheduler := scheduler p;
     world := set_clock (clock (world p) + Z.of_N dt) (world p);
     inFlight := inFlight p |}.

Definition step (p : Process) (e : Event) : Process :=
  match e with
  | TimerFires => timerFires p
  | WorkerSettles i r => workerSettles i r p
  | TimePasses dt => timePasses dt p
  end.

Definition run (evs : list Event) (p : Process) : Process :=
  fold_left step evs p.

End Process.

(** The number of cycles that the timer starts in a run. *)
Fixpoint cyclesStarted (evs : list Event) : nat :=
  match evs with
  | [] => 0
  | TimerFires :: rest => S (cyclesStarted rest)
  | _ :: rest => cyclesStarted rest
  end.

(** ** A fragment of the cron adapter *)

(** The two all-star expressions evaluated in UTC: ["* * * * * *"] fires at
    every full second and ["* * * * *"] at every full minute.  Every other
    expression is outside the fragment and is treated as one that does not
    parse. *)
Definition utcCron (expr : string) (ref : Date) : Error + Date :=
  if String.eqb expr "* * * * * *" then inr ((ref / 1000 + 1) * 1000)
  else if String.eqb expr "* * * * *" then inr ((ref / 60000 + 1) * 60000)
  else inl {| message := "Invalid cron expression" |}.

(** The instants at which the expressions of the fragment fire. *)
Definition utcFires (expr : string) (t : Date) : Prop :=
  (expr = "* * * * * *" /\ t mod 1000 = 0) \/
  (expr = "* * * * *" /\ t mod 60000 = 0).

(** The contract of the cron adapter: [t] is the first instant strictly
    after [ref] at which [expr] fires. *)
Definition firstFireAfter (firesAt : string -> Date -> Prop)
    (expr : string) (ref t : Date) : Prop :=
  ref < t /\ firesAt expr t /\
  forall u, ref < u -> u < t -> ~ firesAt expr u.

(** ** Sample data *)

Module Sample.

(** A worker that returns nothing at once. *)
Definition idle : TaskWorker := fun _ => resolve None.

Definition everySecond : string := "* * * * * *".
Definition everyMinute : string := "* * * * *".

(** A worker that throws at once. *)
Definition failing : TaskWorker := fun _ => throw {| message := "boom" |}.

(** A scheduler with [databasePromise] set, after
    [scheduleTask("job", ..., worker)] and
    [scheduleTask("other", ..., idle)]. *)
Definition schedWith (worker : TaskWorker) : TaskScheduler :=
  {| taskWorkers := <["other" := idle]> (<["job" := worker]> ∅);
     pollingIntervalId := Some 1%positive;
     pollingInterval := 1000; processingTimeout := 60 * 1000;
     databasePromise := Some tt |}.

Definition sched : TaskScheduler := schedWith idle.

Definition job (next : Date) (lease : option Date)
    (log : option (list TaskExecutionLogEntry)) : TaskDefinition :=
  {| _id := "job"; cronSchedule := everySecond;
     nextScheduledTime := next; receivedTime := lease;
     lastErroredTime := None; lastCompletedTime := None;
     executionLog := log |}.

Definition other (next : Date) : TaskDefinition :=
  {| _id := "other"; cronSchedule := everyMinute;
     nextScheduledTime := next; receivedTime := None;
     lastErroredTime := None; lastCompletedTime := None;
     executionLog := None |}.

Definition at_ (t : Date) (c : list TaskDefinition) : World :=
  {| clock := t; collection := c; faults := []; reported := [] |}.

Definition done (t : Date) : TaskExecutionLogEntry :=
  CompletedEntry (t - 5) 5 t None.

(** Nine earlier runs. *)
Definition nineRuns : list TaskExecutionLogEntry :=
  map done [1000; 2000; 3000; 4000; 5000; 6000; 7000; 8000; 9000].

(** The error of a store round trip that fails. *)
Definition outage : Error := {| message := "connection closed" |}.

(** A process whose timer runs and that has no cycle in flight. *)
Definition idleProcess (w : World) : Process :=
  {| scheduler := sched; world := w; inFlight := [] |}.

(** The length of the execution log stored under ["job"]. *)
Definition jobLogLength (w : World) : option nat :=
  (fun d => length (default [] (executionLog d))) <$>
    Mongo.firstMatch (Mongo.byId "job") (collection w).

(** Two calls of [receiveTask], the second [later] milliseconds after the
    first, followed by [completeTask] for the record of the first call and
    then for the record of the second. *)
Definition claimTwiceThenComplete (later : Z) (w : World) : option World :=
  match receiveTask sched w with
  | (Fulfilled (Some first), w1) =>
      match receiveTask sched (set_clock (clock w1 + later) w1) with
      | (Fulfilled (Some second), w2) =>
          let '(_, w3) := completeTask utcCron sched first None w2 in
          let '(_, w4) := completeTask utcCron sched second None w3 in
          Some w4
      | _ => None
      end
  | _ => None
  end.

End Sample.

(** ** Relations between two states of the collection *)

(** Record by record, [c'] is [c] except for the records under [id]; these
    keep their id.  No record is added, removed or moved. *)
Definition onlyTouches (id : string) (c c' : list TaskDefinition) : Prop :=
  Forall2 (fun x y => _id y = _id x /\ (_id x <> id -> y = x)) c c'.

(** Record by record, [c'] is [c] except for [receivedTime]. *)
Definition leaseOnly (c c' : list TaskDefinition) : Prop :=
  Forall2 (fun x y => y = Update.put_receivedTime (receivedTime y) x) c c'.

(** No two records under one [_id]. *)
Definition uniqueIds (c : list TaskDefinition) : Prop := NoDup (map _id c).

(** ** Properties of the collection operations *)

Section CollectionFacts.

Variables (q : TaskDefinition -> bool) (u : TaskDefinition -> TaskDefinition).

Lemma updateFirst_no_match (c : list TaskDefinition) :
  Mongo.firstMatch q c = None -> Mongo.updateFirst q u c = c.
Proof.
  unfold Mongo.firstMatch.
  induction c as [|d rest IH]; simpl; [reflexivity|].
  destruct (q d); [discriminate|].
  intros H. f_equal. exact (IH H).
Qed.

(** On a match exactly one document changes: the first one that
    satisfies the filter. *)
Lemma updateFirst_match (c : list TaskDefinition) (d : TaskDefinition) :
  Mongo.firstMatch q c = Some d ->
  exists before after,
    c = before ++ d :: after /\
    Forall (fun x => q x = false) before /\
    q d = true /\
    Mongo.updateFirst q u c = before ++ u d :: after.
Proof.
  unfold Mongo.firstMatch.
  induction c as [|x rest IH]; simpl; [discriminate|].
  destruct (q x) eqn:Hx.
  - intros [= <-]. exists [], rest. repeat split; auto.
  - intros H. destruct (IH H) as (b & a & -> & Hb & Hd & Hu).
    exists (x :: b), a. rewrite Hu. repeat split; auto.
Qed.

Lemma firstMatch_updateFirst (c : list TaskDefinition) :
  (forall d, q d = true -> q (u d) = true) ->
  Mongo.firstMatch q (Mongo.updateFirst q u c) = u <$> Mongo.firstMatch q c.
Proof.
  intros Hq. unfold Mongo.firstMatch.
  induction c as [|x rest IH]; simpl; [reflexivity|].
  destruct (q x) eqn:Hx; simpl.
  - rewrite (Hq x Hx). reflexivity.
  - rewrite Hx. exact IH.
Qed.

Lemma firstMatch_none (c : list TaskDefinition) :
  Forall (fun x => q x = false) c -> Mongo.firstMatch q c = None.
Proof.
  unfold Mongo.firstMatch.
  induction 1 as [|x rest Hx _ IH]; simpl; [reflexivity|].
  rewrite Hx. exact IH.
Qed.

Lemma updateFirst_length (c : list TaskDefinition) :
  length (Mongo.updateFirst q u c) = length c.
Proof.
  induction c as [|x rest IH]; simpl; [reflexivity|].
  destruct (q x); simpl; congruence.
Qed.

End CollectionFacts.



(** ** The methods on a reachable store *)

Lemma getMongoCollection_configured (this : TaskScheduler) (db : MongoDb) (w : World) :
  databasePromise this = Some db -> getMongoCollection this w = (Fulfilled db, w).
Proof. unfold getMongoCollection. intros ->. reflexivity. Qed.

Lemma getMongoCollection_missing (this : TaskScheduler) (w : World) :
  databasePromise this = None ->
  getMongoCollection this w =
    (Rejected {| message := "No database configured" |}, w).
Proof. unfold getMongoCollection. intros ->. reflexivity. Qed.

Section ReachableStore.

(** A database is configured and no round trip is going to fail. *)
Variables (this : TaskScheduler) (db : MongoDb) (w : World).
Hypothesis configured : databasePromise this = Some db.
Hypothesis healthy : faults w = [].

Lemma roundTrip_healthy : Mongo.roundTrip w = (Fulfilled tt, w).
Proof. unfold Mongo.roundTrip. rewrite healthy. reflexivity. Qed.

Lemma roundTrip_healthy_written (c : list TaskDefinition) :
  Mongo.roundTrip (set_collection c w) = (Fulfilled tt, set_collection c w).
Proof. unfold Mongo.roundTrip. cbn [faults set_collection]. rewrite healthy. reflexivity. Qed.

Lemma findTask_healthy (id : string) :
  findTask this id w =
    (Fulfilled (Mongo.firstMatch (Mongo.byId id) (collection w)), w).
Proof.
  unfold findTask, await, Mongo.findOne, await.
  rewrite (getMongoCollection_configured _ _ _ configured), roundTrip_healthy.
  reflexivity.
Qed.

Lemma receiveTask_healthy :
  receiveTask this w =
    (Fulfilled (Update.put_receivedTime (Some (clock w)) <$>
                  Mongo.firstMatch (receiveQuery this (clock w)) (collection w)),
     set_collection
       (Mongo.updateFirst (receiveQuery this (clock w))
          (Update.put_receivedTime (Some (clock w))) (collection w)) w).
Proof.
  unfold receiveTask, tryCatch, await, now, Mongo.findOneAndUpdate, await.
  rewrite (getMongoCollection_configured _ _ _ configured), roundTrip_healthy.
  reflexivity.
Qed.

(** What [updateTask] leaves in the collection: the update, then the
    eviction of the first log entry when the caller's copy of the record
    holds ten entries or more. *)
Lemma updateTask_healthy (task : TaskDefinition)
    (update : TaskDefinition -> TaskDefinition) :
  updateTask this task update w =
    (Fulfilled tt,
     set_collection
       (let c := Mongo.updateFirst (Mongo.byId (_id task)) update (collection w) in
        if (10 <=? length (default [] (executionLog task)))%nat
        then Mongo.updateFirst (Mongo.byId (_id task)) Update.pop_executionLog c
        else c) w).
Proof.
  unfold updateTask, await, Mongo.updateOne, await.
  rewrite (getMongoCollection_configured _ _ _ configured), roundTrip_healthy.
  destruct (10 <=? length (default [] (executionLog task)))%nat; [|reflexivity].
  rewrite roundTrip_healthy_written. reflexivity.
Qed.

(** The record stored under the task's id after [updateTask], for an
    update that keeps [_id]. *)
Lemma updateTask_stored (task d : TaskDefinition)
    (update : TaskDefinition -> TaskDefinition) :
  (forall x, _id (update x) = _id x) ->
  Mongo.firstMatch (Mongo.byId (_id task)) (collection w) = Some d ->
  exists w',
    updateTask this task update w = (Fulfilled tt, w') /\
    Mongo.firstMatch (Mongo.byId (_id task)) (collection w') =
      Some (if (10 <=? length (default [] (executionLog task)))%nat
            then Update.pop_executionLog (update d)
            else update d).
Proof.
  intros Hid Hd. eexists. split; [apply updateTask_healthy|].
  assert (Hkeep : forall u : TaskDefinition -> TaskDefinition,
            (forall x, _id (u x) = _id x) ->
            forall x, Mongo.byId (_id task) x = true ->
                      Mongo.byId (_id task) (u x) = true).
  { intros u Hu x. unfold Mongo.byId. rewrite Hu. auto. }
  cbn [collection set_collection].
  destruct (10 <=? length (default [] (executionLog task)))%nat.
  - rewrite firstMatch_updateFirst by (apply Hkeep; reflexivity).
    rewrite firstMatch_updateFirst by (apply Hkeep; exact Hid).
    rewrite Hd. reflexivity.
  - rewrite firstMatch_updateFirst by (apply Hkeep; exact Hid).
    rewrite Hd. reflexivity.
Qed.

End ReachableStore.

(** Runs [updateTask] in the goal on a reachable store and names the world
    and the stored record it leaves. *)
Ltac run_updateTask Hdb Hf Hd :=
  match goal with
  | |- context [updateTask ?s ?task ?u ?w] =>
      let w' := fresh "w'" in
      let Hrun := fresh "Hrun" in
      let Hst := fresh "Hst" in
      match type of Hd with
      | _ = Some ?d =>
          destruct (updateTask_stored s _ w Hdb Hf task d u)
            as (w' & Hrun & Hst); [reflexivity | exact Hd |];
          rewrite Hrun
      end
  end.

(** ** The claim: [receiveTask] *)

Lemma receiveQuery_spec (this : TaskScheduler) (t : Date) (d : TaskDefinition) :
  receiveQuery this t d = true <->
  is_Some (taskWorkers this !! _id d) /\
  nextScheduledTime d < t /\
  (receivedTime d = None \/
   exists r, receivedTime d = Some r /\ r < t - processingTimeout this).
Proof.
  unfold receiveQuery.
  rewrite !andb_true_iff, orb_true_iff, bool_decide_eq_true, Z.ltb_lt.
  rewrite <- elem_of_dom, dom_alt.
  assert (Hkeys : _id d ∈ (map_to_list (taskWorkers this)).*1 <->
                  _id d ∈ (list_to_set (map_to_list (taskWorkers this)).*1 : gset string))
    by (rewrite elem_of_list_to_set; reflexivity).
  rewrite Hkeys.
  destruct (receivedTime d) as [r|].
  - rewrite Z.ltb_lt. split.
    + intros [[Hk Hn] [Hr|Hr]]; [|discriminate]. eauto 10.
    + intros (Hk & Hn & [Hr|(r' & [= <-] & Hr)]); [discriminate|]. auto.
  - split.
    + intros [[Hk Hn] _]. auto.
    + intros (Hk & Hn & _). auto.
Qed.

(** C1. With the store reachable, [receiveTask] matches a record exactly
    when its id is registered, its [nextScheduledTime] is strictly before
    the current instant and its [receivedTime] is absent or older than now
    minus [processingTimeout]; on a match the first such record gets
    [receivedTime] set to the current instant, in the store and in the
    record returned, and no other record changes; without a match nothing
    is returned and the world is as before. *)
Theorem receiveTask_claims (this : TaskScheduler) (db : MongoDb) (w : World) :
  databasePromise this = Some db ->
  faults w = [] ->
  (forall d,
     receiveQuery this (clock w) d = true <->
     is_Some (taskWorkers this !! _id d) /\
     nextScheduledTime d < clock w /\
     (receivedTime d = None \/
      exists r, receivedTime d = Some r /\
                r < clock w - processingTimeout this)) /\
  (forall d,
     Mongo.firstMatch (receiveQuery this (clock w)) (collection w) = Some d ->
     exists before after,
       collection w = before ++ d :: after /\
       Forall (fun x => receiveQuery this (clock w) x = false) before /\
       receiveQuery this (clock w) d = true /\
       receiveTask this w =
         (Fulfilled (Some (Update.put_receivedTime (Some (clock w)) d)),
          set_collection
            (before ++ Update.put_receivedTime (Some (clock w)) d :: after) w)) /\
  (Forall (fun x => receiveQuery this (clock w) x = false) (collection w) ->
   receiveTask this w = (Fulfilled None, w)).
Proof.
  intros Hdb Hf. split; [|split].
  - intros d. apply receiveQuery_spec.
  - intros d Hd.
    destruct (updateFirst_match _ (Update.put_receivedTime (Some (clock w))) _ _ Hd)
      as (before & after & Hc & Hb & Hq & Hu).
    exists before, after. repeat split; auto.
    rewrite (receiveTask_healthy _ _ _ Hdb Hf), Hd, Hu. reflexivity.
  - intros Hnone.
    assert (Hfind : Mongo.firstMatch (receiveQuery this (clock w)) (collection w) = None).
    { apply firstMatch_none. exact Hnone. }
    rewrite (receiveTask_healthy _ _ _ Hdb Hf), Hfind.
    rewrite (updateFirst_no_match _ _ _ Hfind).
    destruct w; reflexivity.
Qed.

Lemma receiveTask_claims_witness :
  databasePromise Sample.sched = Some tt /\
  faults (Sample.at_ 5000 [Sample.other 9000; Sample.job 2000 None None]) = [] /\
  receiveTask Sample.sched
    (Sample.at_ 5000 [Sample.other 9000; Sample.job 2000 None None]) =
  (Fulfilled (Some (Sample.job 2000 (Some 5000) None)),
   Sample.at_ 5000 [Sample.other 9000; Sample.job 2000 (Some 5000) None]).
Proof.
  split; [reflexivity|]. split; [reflexivity|].
  destruct (receiveTask_claims Sample.sched tt
              (Sample.at_ 5000 [Sample.other 9000; Sample.job 2000 None None])
              eq_refl eq_refl) as (_ & Hmatch & _).
  destruct (Hmatch (Sample.job 2000 None None)) as (b & a & Hc & Hb & _ & Hr).
  - vm_compute. reflexivity.
  - rewrite Hr. f_equal.
    destruct b as [|x b].
    + simpl in Hc. discriminate Hc.
    + inversion Hc as [[Hx Hrest]]. destruct b as [|y b].
      * inversion Hrest. reflexivity.
      * inversion Hrest as [[Hy Hrest']]. destruct b; discriminate Hrest'.
Defined.

(** ** The lease handle: [signalProgress] *)

Lemma renewQuery_spec (this : TaskScheduler) (task : TaskDefinition)
    (t : Date) (d : TaskDefinition) :
  renewQuery this task t d = true <->
  _id d = _id task /\
  exists r, receivedTime d = Some r /\ t - processingTimeout this < r.
Proof.
  unfold renewQuery, Mongo.byId.
  rewrite andb_true_iff, bool_decide_eq_true.
  destruct (receivedTime d) as [r|].
  - rewrite Z.ltb_lt. split.
    + intros [Hi Hr]. eauto.
    + intros (Hi & r' & [= <-] & Hr). auto.
  - split.
    + intros [_ H]. discriminate H.
    + intros (_ & r & H & _). discriminate H.
Qed.

(** C6. With the store reachable, a renewal is one conditional update:
    its filter holds exactly of the record with the task's id whose
    [receivedTime] is newer than now minus [processingTimeout]; the first
    record that satisfies it gets [receivedTime] set to the current instant
    and keeps every other field, no other record changes, and the call is
    fulfilled; when no record satisfies the filter the call is rejected
    with the lease-expired error and the world, the collection included, is
    as before. *)
Theorem signalProgress_renews (this : TaskScheduler) (db : MongoDb)
    (task : TaskDefinition) (w : World) :
  databasePromise this = Some db ->
  faults w = [] ->
  (forall d,
     renewQuery this task (clock w) d = true <->
     _id d = _id task /\
     exists r, receivedTime d = Some r /\
               clock w - processingTimeout this < r) /\
  (forall d,
     Mongo.firstMatch (renewQuery this task (clock w)) (collection w) = Some d ->
     exists before after,
       collection w = before ++ d :: after /\
       Forall (fun x => renewQuery this task (clock w) x = false) before /\
       processTask_signalProgress this task w =
         (Fulfilled tt,
          set_collection
            (before ++
             {| _id := _id d; cronSchedule := cronSchedule d;
                nextScheduledTime := nextScheduledTime d;
                receivedTime := Some (clock w);
                lastErroredTime := lastErroredTime d;
                lastCompletedTime := lastCompletedTime d;
                executionLog := executionLog d |} :: after) w)) /\
  (Forall (fun x => renewQuery this task (clock w) x = false) (collection w) ->
   processTask_signalProgress this task w =
     (Rejected {| message := "Task expired or no longer exists" |}, w)).
Proof.
  intros Hdb Hf.
  assert (Hrun : processTask_signalProgress this task w =
    match Update.put_receivedTime (Some (clock w)) <$>
          Mongo.firstMatch (renewQuery this task (clock w)) (collection w) with
    | None => throw {| message := "Task expired or no longer exists" |}
    | Some _ => resolve tt
    end (set_collection
           (Mongo.updateFirst (renewQuery this task (clock w))
              (Update.put_receivedTime (Some (clock w))) (collection w)) w)).
  { unfold processTask_signalProgress, await, now, Mongo.findOneAndUpdate, await.
    rewrite (getMongoCollection_configured _ _ _ Hdb), (roundTrip_healthy _ Hf).
    reflexivity. }
  split; [|split].
  - intros d. apply renewQuery_spec.
  - intros d Hd.
    destruct (updateFirst_match _ (Update.put_receivedTime (Some (clock w))) _ _ Hd)
      as (before & after & Hc & Hb & _ & Hu).
    exists before, after. split; [exact Hc|]. split; [exact Hb|].
    rewrite Hrun, Hd, Hu. reflexivity.
  - intros Hnone. apply firstMatch_none in Hnone.
    rewrite Hrun, Hnone, (updateFirst_no_match _ _ _ Hnone).
    destruct w; reflexivity.
Qed.

Lemma signalProgress_renews_witness :
  databasePromise Sample.sched = Some tt /\
  faults (Sample.at_ 35000 [Sample.other 9000;
                            Sample.job 2000 (Some 5000) None]) = [] /\
  Mongo.firstMatch
    (renewQuery Sample.sched (Sample.job 2000 (Some 5000) None) 35000)
    [Sample.other 9000; Sample.job 2000 (Some 5000) None] =
    Some (Sample.job 2000 (Some 5000) None) /\
  processTask_signalProgress Sample.sched (Sample.job 2000 (Some 5000) None)
    (Sample.at_ 35000 [Sample.other 9000; Sample.job 2000 (Some 5000) None]) =
  (Fulfilled tt,
   Sample.at_ 35000 [Sample.other 9000; Sample.job 2000 (Some 35000) None]) /\
  processTask_signalProgress Sample.sched (Sample.job 2000 (Some 30000) None)
    (Sample.at_ 100000 [Sample.job 2000 (Some 30000) None]) =
  (Rejected {| message := "Task expired or no longer exists" |},
   Sample.at_ 100000 [Sample.job 2000 (Some 30000) None]).
Proof.
  split; [reflexivity|]. split; [reflexivity|]. split; [reflexivity|]. split.
  - destruct (signalProgress_renews Sample.sched tt
                (Sample.job 2000 (Some 5000) None)
                (Sample.at_ 35000 [Sample.other 9000;
                                   Sample.job 2000 (Some 5000) None])
                eq_refl eq_refl) as (_ & Hrenew & _).
    destruct (Hrenew (Sample.job 2000 (Some 5000) None) eq_refl)
      as (before & after & Hc & Hb & Hrun).
    rewrite Hrun. f_equal.
    destruct before as [|x before].
    + simpl in Hc. discriminate Hc.
    + inversion Hc as [[Hx Hrest]]. destruct before as [|y before].
      * inversion Hrest. reflexivity.
      * inversion Hrest as [[Hy Hrest']]. destruct before; discriminate Hrest'.
  - apply (signalProgress_renews Sample.sched tt
             (Sample.job 2000 (Some 30000) None)
             (Sample.at_ 100000 [Sample.job 2000 (Some 30000) None])
             eq_refl eq_refl).
    repeat constructor.
Defined.

(** ** Settlement: [completeTask] and [releaseTask] *)

(** C4. With the store reachable, both settlements of a claimed task clear
    [receivedTime] of the stored record, store the fire time that the cron
    schedule gives for now plus one second, and append one entry to the
    execution log (after which [updateTask] evicts the first entry when the
    claimed copy held ten or more): [completeTask] sets [lastCompletedTime]
    and appends a completed entry with the worker's output, [releaseTask]
    sets [lastErroredTime] and appends an errored entry with the error's
    message. *)
Theorem settlement_writes (cronParser : string -> Date -> Error + Date)
    (this : TaskScheduler) (db : MongoDb) (task d : TaskDefinition)
    (nextTime : Date) (w : World) :
  databasePromise this = Some db ->
  faults w = [] ->
  Mongo.firstMatch (Mongo.byId (_id task)) (collection w) = Some d ->
  cronParser (cronSchedule task) (clock w + 1000) = inr nextTime ->
  let received := default (clock w) (receivedTime task) in
  let evict (l : list TaskExecutionLogEntry) :=
    if (10 <=? length (default [] (executionLog task)))%nat then tail l else l in
  (forall output, exists w',
     completeTask cronParser this task output w = (inr (Fulfilled tt), w') /\
     Mongo.firstMatch (Mongo.byId (_id task)) (collection w') =
       Some {| _id := _id d; cronSchedule := cronSchedule d;
               nextScheduledTime := nextTime;
               receivedTime := None;
               lastErroredTime := lastErroredTime d;
               lastCompletedTime := Some (clock w);
               executionLog :=
                 Some (evict (default [] (executionLog d) ++
                              [CompletedEntry received (clock w - received)
                                              (clock w) output])) |}) /\
  (forall error, exists w',
     releaseTask cronParser this task error w = (inr (Fulfilled tt), w') /\
     Mongo.firstMatch (Mongo.byId (_id task)) (collection w') =
       Some {| _id := _id d; cronSchedule := cronSchedule d;
               nextScheduledTime := nextTime;
               receivedTime := None;
               lastErroredTime := Some (clock w);
               lastCompletedTime := lastCompletedTime d;
               executionLog :=
                 Some (evict (default [] (executionLog d) ++
                              [ErroredEntry received (clock w - received)
                                            (clock w) (message error)])) |}).
Proof.
  intros Hdb Hf Hd Hcron received evict. split.
  - intros output. unfold completeTask. rewrite Hcron.
    run_updateTask Hdb Hf Hd.
    exists w'. split; [reflexivity|].
    rewrite Hst. subst evict received.
    destruct (10 <=? length (default [] (executionLog task)))%nat; reflexivity.
  - intros error. unfold releaseTask. rewrite Hcron.
    run_updateTask Hdb Hf Hd.
    exists w'. split; [reflexivity|].
    rewrite Hst. subst evict received.
    destruct (10 <=? length (default [] (executionLog task)))%nat; reflexivity.
Qed.

Lemma settlement_writes_witness :
  databasePromise Sample.sched = Some tt /\
  faults (Sample.at_ 5900 [Sample.job 2000 (Some 5000) None]) = [] /\
  Mongo.firstMatch (Mongo.byId "job")
    (collection (Sample.at_ 5900 [Sample.job 2000 (Some 5000) None])) =
    Some (Sample.job 2000 (Some 5000) None) /\
  utcCron Sample.everySecond (5900 + 1000) = inr 7000 /\
  exists w',
    completeTask utcCron Sample.sched (Sample.job 2000 (Some 5000) None)
      (Some "ok") (Sample.at_ 5900 [Sample.job 2000 (Some 5000) None]) =
      (inr (Fulfilled tt), w') /\
    Mongo.firstMatch (Mongo.byId "job") (collection w') =
      Some {| _id := "job"; cronSchedule := Sample.everySecond;
              nextScheduledTime := 7000; receivedTime := None;
              lastErroredTime := None; lastCompletedTime := Some 5900;
              executionLog := Some [CompletedEntry 5000 900 5900 (Some "ok")] |}.
Proof.
  repeat (split; [reflexivity|]).
  exact (proj1 (settlement_writes utcCron Sample.sched tt
                  (Sample.job 2000 (Some 5000) None)
                  (Sample.job 2000 (Some 5000) None) 7000
                  (Sample.at_ 5900 [Sample.job 2000 (Some 5000) None])
                  eq_refl eq_refl eq_refl eq_refl) (Some "ok")).
Defined.

(** In a cycle that nothing else interleaves with, the claimed copy and the
    stored record carry the same log: a log of at most ten entries stays at
    most ten entries long across [updateTask], and a full log loses its
    oldest entry to the new one. *)
Lemma push_evict_bounded (log : list TaskExecutionLogEntry)
    (e : TaskExecutionLogEntry) :
  (length log <= 10)%nat ->
  let log' := if (10 <=? length log)%nat then tail (log ++ [e]) else log ++ [e] in
  (length log' <= 10)%nat /\
  (length log = 10%nat -> log' = tail log ++ [e]).
Proof.
  intros Hlen. cbn zeta.
  destruct (10 <=? length log)%nat eqn:Hfull.
  - apply Nat.leb_le in Hfull.
    destruct log as [|x log]; [simpl in Hfull; lia|].
    simpl. rewrite length_app. simpl in *. split; [lia | reflexivity].
  - apply Nat.leb_gt in Hfull. rewrite length_app. simpl. split; lia.
Qed.

(** ** Declaration: [scheduleTask] *)

Lemma startPolling_running (this : TaskScheduler) :
  is_Some (pollingIntervalId (startPolling this)) /\
  taskWorkers (startPolling this) = taskWorkers this /\
  databasePromise (startPolling this) = databasePromise this /\
  processingTimeout (startPolling this) = processingTimeout this.
Proof.
  unfold startPolling.
  destruct (pollingIntervalId this) eqn:H; simpl; rewrite ?H; eauto.
Qed.

(** The scheduler that [scheduleTask] works with once its first two
    statements have run. *)
Lemma scheduleTask_scheduler (cronParser : string -> Date -> Error + Date)
    (this : TaskScheduler) (id cron : string) (worker : TaskWorker) (w : World) :
  (scheduleTask cronParser this id cron worker w).1.2 =
    startPolling (set_taskWorkers (<[id := worker]> (taskWorkers this)) this).
Proof.
  unfold scheduleTask.
  match goal with |- context [let '(r, w') := ?b w in _] => destruct (b w) end.
  reflexivity.
Qed.

(** C7. With the store reachable and no record under [id], [scheduleTask]
    adds exactly one record to the collection: it carries [id], the
    schedule and the fire time that the cron adapter gives for the current
    instant, the first fire time strictly after it, and has no
    [receivedTime] and no execution log. *)
Theorem scheduleTask_first_declaration
    (cronParser : string -> Date -> Error + Date)
    (this : TaskScheduler) (db : MongoDb) (id cron : string)
    (worker : TaskWorker) (nextTime : Date) (w : World)
    (firesAt : string -> Date -> Prop) :
  (forall expr ref t,
     cronParser expr ref = inr t -> firstFireAfter firesAt expr ref t) ->
  databasePromise this = Some db ->
  faults w = [] ->
  Mongo.firstMatch (Mongo.byId id) (collection w) = None ->
  cronParser cron (clock w) = inr nextTime ->
  exists this',
    scheduleTask cronParser this id cron worker w =
      (Fulfilled tt, this',
       set_collection
         (collection w ++
          [{| _id := id; cronSchedule := cron;
              nextScheduledTime := nextTime; receivedTime := None;
              lastErroredTime := None; lastCompletedTime := None;
              executionLog := None |}]) w) /\
    firstFireAfter firesAt cron (clock w) nextTime.
Proof.
  intros Hafter Hdb Hf Hnew Hcron.
  eexists. split; [|exact (Hafter _ _ _ Hcron)].
  destruct (startPolling_running
              (set_taskWorkers (<[id := worker]> (taskWorkers this)) this))
    as (_ & _ & Hdb' & _).
  cbn [databasePromise set_taskWorkers] in Hdb'. rewrite Hdb in Hdb'.
  unfold scheduleTask, await, now.
  rewrite (findTask_healthy _ _ _ Hdb' Hf), Hnew, Hcron.
  unfold insertTask, await, Mongo.insertOne, await.
  rewrite (getMongoCollection_configured _ _ _ Hdb'), (roundTrip_healthy _ Hf).
  cbn [_id]. rewrite Hnew. reflexivity.
Qed.

Lemma utcCron_period (p ref u : Z) :
  0 < p ->
  ref < (ref / p + 1) * p /\
  ((ref / p + 1) * p) mod p = 0 /\
  (ref < u -> u < (ref / p + 1) * p -> u mod p <> 0).
Proof.
  intros Hp. pose proof (Z.div_mod ref p ltac:(lia)) as Hdm.
  pose proof (Z.mod_pos_bound ref p Hp) as Hb.
  split; [nia|]. split; [apply Z.mod_mul; lia|].
  intros Hlo Hhi Hu.
  pose proof (Z.div_mod u p ltac:(lia)) as Hum. rewrite Hu in Hum.
  assert (u / p < ref / p + 1) by nia.
  nia.
Qed.

Lemma utcCron_first_fire (expr : string) (ref t : Date) :
  utcCron expr ref = inr t -> firstFireAfter utcFires expr ref t.
Proof.
  unfold utcCron, firstFireAfter, utcFires.
  destruct (String.eqb_spec expr "* * * * * *") as [->|Hs].
  - intros [= <-]. destruct (utcCron_period 1000 ref ref ltac:(lia)) as (H1 & H2 & _).
    split; [exact H1|]. split; [left; auto|].
    intros u Hlo Hhi [[_ Hu]|[Hne _]]; [|discriminate Hne].
    destruct (utcCron_period 1000 ref u ltac:(lia)) as (_ & _ & H3). exact (H3 Hlo Hhi Hu).
  - destruct (String.eqb_spec expr "* * * * *") as [->|Hm]; [|discriminate].
    intros [= <-]. destruct (utcCron_period 60000 ref ref ltac:(lia)) as (H1 & H2 & _).
    split; [exact H1|]. split; [right; auto|].
    intros u Hlo Hhi [[Hne _]|[_ Hu]]; [discriminate Hne|].
    destruct (utcCron_period 60000 ref u ltac:(lia)) as (_ & _ & H3). exact (H3 Hlo Hhi Hu).
Qed.

Lemma scheduleTask_first_declaration_witness :
  databasePromise Sample.sched = Some tt /\
  faults (Sample.at_ 1600 [Sample.other 60000]) = [] /\
  Mongo.firstMatch (Mongo.byId "job")
    (collection (Sample.at_ 1600 [Sample.other 60000])) = None /\
  utcCron Sample.everySecond 1600 = inr 2000 /\
  exists this',
    scheduleTask utcCron Sample.sched "job" Sample.everySecond Sample.idle
      (Sample.at_ 1600 [Sample.other 60000]) =
      (Fulfilled tt, this',
       Sample.at_ 1600 [Sample.other 60000; Sample.job 2000 None None]) /\
    firstFireAfter utcFires Sample.everySecond 1600 2000.
Proof.
  repeat (split; [reflexivity|]).
  exact (scheduleTask_first_declaration utcCron Sample.sched tt "job"
           Sample.everySecond Sample.idle 2000
           (Sample.at_ 1600 [Sample.other 60000]) utcFires
           utcCron_first_fire eq_refl eq_refl eq_refl eq_refl).
Defined.

(** [scheduleTask] on a record that exists, with the store reachable and a
    schedule that parses: the record is rewritten when the schedule differs
    or when no lease is held and the stored time is later than the fresh
    one, and the world is left alone otherwise. *)
Lemma scheduleTask_existing (cronParser : string -> Date -> Error + Date)
    (this : TaskScheduler) (db : MongoDb) (id cron : string)
    (worker : TaskWorker) (task : TaskDefinition) (nextTime : Date) (w : World) :
  databasePromise this = Some db ->
  faults w = [] ->
  Mongo.firstMatch (Mongo.byId id) (collection w) = Some task ->
  cronParser cron (clock w) = inr nextTime ->
  let this' :=
    startPolling (set_taskWorkers (<[id := worker]> (taskWorkers this)) this) in
  scheduleTask cronParser this id cron worker w =
    if negb (String.eqb (cronSchedule task) cron)
       || (negb (bool_decide (is_Some (receivedTime task)))
           && (nextTime <? nextScheduledTime task))
    then
      let '(r, w') :=
        updateTask this' task
          (fun d => Update.set_nextScheduledTime nextTime
                      (Update.set_cronSchedule cron d)) w in
      (r, this', w')
    else (Fulfilled tt, this', w).
Proof.
  intros Hdb Hf Htask Hcron this'.
  destruct (startPolling_running
              (set_taskWorkers (<[id := worker]> (taskWorkers this)) this))
    as (_ & _ & Hdb' & _).
  cbn [databasePromise set_taskWorkers] in Hdb'. rewrite Hdb in Hdb'.
  unfold scheduleTask, await, now.
  rewrite (findTask_healthy _ _ _ Hdb' Hf), Htask, Hcron.
  destruct (negb (String.eqb (cronSchedule task) cron)
            || (negb (bool_decide (is_Some (receivedTime task)))
                && (nextTime <? nextScheduledTime task))); reflexivity.
Qed.

Lemma firstMatch_byId (id : string) (c : list TaskDefinition) (d : TaskDefinition) :
  Mongo.firstMatch (Mongo.byId id) c = Some d -> _id d = id.
Proof.
  unfold Mongo.firstMatch. intros H. apply find_some in H as [_ H].
  unfold Mongo.byId in H. apply bool_decide_eq_true in H. exact H.
Qed.

(** C8. With the store reachable, re-declaring the id of a stored record
    with a schedule string other than the stored one overwrites the stored
    [cronSchedule] with the new string and the stored [nextScheduledTime]
    with the fire time the new schedule gives for the current instant,
    whatever the stored time and the lease were; the lease and the outcome
    times of the record stay. *)
Theorem scheduleTask_new_schedule
    (cronParser : string -> Date -> Error + Date)
    (this : TaskScheduler) (db : MongoDb) (id cron : string)
    (worker : TaskWorker) (task : TaskDefinition) (nextTime : Date) (w : World) :
  databasePromise this = Some db ->
  faults w = [] ->
  Mongo.firstMatch (Mongo.byId id) (collection w) = Some task ->
  cronSchedule task <> cron ->
  cronParser cron (clock w) = inr nextTime ->
  exists this' w' task',
    scheduleTask cronParser this id cron worker w = (Fulfilled tt, this', w') /\
    Mongo.firstMatch (Mongo.byId id) (collection w') = Some task' /\
    cronSchedule task' = cron /\
    nextScheduledTime task' = nextTime /\
    _id task' = id /\
    receivedTime task' = receivedTime task /\
    lastErroredTime task' = lastErroredTime task /\
    lastCompletedTime task' = lastCompletedTime task.
Proof.
  intros Hdb Hf Htask Hne Hcron.
  rewrite (scheduleTask_existing _ _ _ _ _ _ _ _ _ Hdb Hf Htask Hcron).
  apply String.eqb_neq in Hne. rewrite Hne. cbn [negb orb].
  destruct (startPolling_running
              (set_taskWorkers (<[id := worker]> (taskWorkers this)) this))
    as (_ & _ & Hdb' & _).
  cbn [databasePromise set_taskWorkers] in Hdb'. rewrite Hdb in Hdb'.
  pose proof (firstMatch_byId _ _ _ Htask) as Hid.
  rewrite <- Hid in Htask.
  run_updateTask Hdb' Hf Htask.
  rewrite Hid in *.
  eexists _, w', _. split; [reflexivity|]. split; [exact Hst|].
  destruct (10 <=? length (default [] (executionLog task)))%nat;
    repeat split; auto.
Qed.

Lemma scheduleTask_new_schedule_witness :
  databasePromise Sample.sched = Some tt /\
  faults (Sample.at_ 1600 [Sample.job 2000 (Some 1200) None]) = [] /\
  Mongo.firstMatch (Mongo.byId "job")
    (collection (Sample.at_ 1600 [Sample.job 2000 (Some 1200) None])) =
    Some (Sample.job 2000 (Some 1200) None) /\
  cronSchedule (Sample.job 2000 (Some 1200) None) <> Sample.everyMinute /\
  utcCron Sample.everyMinute 1600 = inr 60000 /\
  exists this' w' task',
    scheduleTask utcCron Sample.sched "job" Sample.everyMinute Sample.idle
      (Sample.at_ 1600 [Sample.job 2000 (Some 1200) None]) =
      (Fulfilled tt, this', w') /\
    Mongo.firstMatch (Mongo.byId "job") (collection w') = Some task' /\
    cronSchedule task' = Sample.everyMinute /\
    nextScheduledTime task' = 60000 /\
    _id task' = "job" /\
    receivedTime task' = Some 1200 /\
    lastErroredTime task' = None /\
    lastCompletedTime task' = None.
Proof.
  repeat (split; [reflexivity|]). split; [discriminate|]. split; [reflexivity|].
  exact (scheduleTask_new_schedule utcCron Sample.sched tt "job"
           Sample.everyMinute Sample.idle (Sample.job 2000 (Some 1200) None)
           60000 (Sample.at_ 1600 [Sample.job 2000 (Some 1200) None])
           eq_refl eq_refl eq_refl ltac:(discriminate) eq_refl).
Defined.

(** C2, as stated, fails: the record of ["job"] holds no lease and is due at
    3000; at 1600 the same schedule gives 2000, and re-declaring ["job"]
    with the identical schedule string moves the stored
    [nextScheduledTime] from 3000 to 2000. *)
Lemma redeclare_same_schedule_rewrites :
  Mongo.firstMatch (Mongo.byId "job")
    (collection (Sample.at_ 1600 [Sample.job 3000 None None])) =
    Some (Sample.job 3000 None None) /\
  cronSchedule (Sample.job 3000 None None) = Sample.everySecond /\
  Mongo.firstMatch (Mongo.byId "job")
    (collection
       (scheduleTask utcCron Sample.sched "job" Sample.everySecond Sample.idle
          (Sample.at_ 1600 [Sample.job 3000 None None])).2) =
    Some (Sample.job 2000 None None) /\
  Sample.job 2000 None None <> Sample.job 3000 None None.
Proof.
  repeat (split; [vm_compute; reflexivity|]). discriminate.
Qed.

(** C2, amended. With the store reachable, re-declaring the id of a stored
    record with the identical schedule string leaves the world, and so the
    stored record, as it was whenever the record holds a lease or its
    stored [nextScheduledTime] is not later than the fire time the schedule
    gives for the current instant; when no lease is held and the stored
    time is later, the stored [nextScheduledTime] is overwritten with that
    fire time and the schedule string stays. *)
Theorem scheduleTask_same_schedule
    (cronParser : string -> Date -> Error + Date)
    (this : TaskScheduler) (db : MongoDb) (id cron : string)
    (worker : TaskWorker) (task : TaskDefinition) (nextTime : Date) (w : World) :
  databasePromise this = Some db ->
  faults w = [] ->
  Mongo.firstMatch (Mongo.byId id) (collection w) = Some task ->
  cronSchedule task = cron ->
  cronParser cron (clock w) = inr nextTime ->
  (is_Some (receivedTime task) \/ nextScheduledTime task <= nextTime ->
   exists this',
     scheduleTask cronParser this id cron worker w = (Fulfilled tt, this', w)) /\
  (receivedTime task = None -> nextTime < nextScheduledTime task ->
   exists this' w' task',
     scheduleTask cronParser this id cron worker w = (Fulfilled tt, this', w') /\
     Mongo.firstMatch (Mongo.byId id) (collection w') = Some task' /\
     nextScheduledTime task' = nextTime /\
     cronSchedule task' = cron /\
     receivedTime task' = None).
Proof.
  intros Hdb Hf Htask Hsame Hcron.
  rewrite (scheduleTask_existing _ _ _ _ _ _ _ _ _ Hdb Hf Htask Hcron).
  apply String.eqb_eq in Hsame. rewrite Hsame. cbn [negb orb].
  split.
  - intros Hkeep.
    assert (Hcond : negb (bool_decide (is_Some (receivedTime task)))
                    && (nextTime <? nextScheduledTime task) = false).
    { destruct Hkeep as [Hlease|Hle].
      - rewrite (bool_decide_eq_true_2 _ Hlease). reflexivity.
      - apply andb_false_iff. right. apply Z.ltb_ge. exact Hle. }
    rewrite Hcond. eexists. reflexivity.
  - intros Hfree Hlater.
    assert (Hcond : negb (bool_decide (is_Some (receivedTime task)))
                    && (nextTime <? nextScheduledTime task) = true).
    { rewrite Hfree. apply andb_true_iff. split.
      - rewrite bool_decide_eq_false_2; [reflexivity|].
        intros [x Hx]. discriminate Hx.
      - apply Z.ltb_lt. exact Hlater. }
    rewrite Hcond.
    destruct (startPolling_running
                (set_taskWorkers (<[id := worker]> (taskWorkers this)) this))
      as (_ & _ & Hdb' & _).
    cbn [databasePromise set_taskWorkers] in Hdb'. rewrite Hdb in Hdb'.
    pose proof (firstMatch_byId _ _ _ Htask) as Hid.
    rewrite <- Hid in Htask.
    run_updateTask Hdb' Hf Htask.
    rewrite Hid in *.
    eexists _, w', _. split; [reflexivity|]. split; [exact Hst|].
    destruct (10 <=? length (default [] (executionLog task)))%nat;
      repeat split; auto.
Qed.

Lemma scheduleTask_same_schedule_witness :
  databasePromise Sample.sched = Some tt /\
  faults (Sample.at_ 1600 [Sample.job 3000 (Some 1200) None]) = [] /\
  Mongo.firstMatch (Mongo.byId "job")
    (collection (Sample.at_ 1600 [Sample.job 3000 (Some 1200) None])) =
    Some (Sample.job 3000 (Some 1200) None) /\
  cronSchedule (Sample.job 3000 (Some 1200) None) = Sample.everySecond /\
  utcCron Sample.everySecond 1600 = inr 2000 /\
  exists this',
    scheduleTask utcCron Sample.sched "job" Sample.everySecond Sample.idle
      (Sample.at_ 1600 [Sample.job 3000 (Some 1200) None]) =
      (Fulfilled tt, this', Sample.at_ 1600 [Sample.job 3000 (Some 1200) None]).
Proof.
  repeat (split; [reflexivity|]).
  apply (scheduleTask_same_schedule utcCron Sample.sched tt "job"
           Sample.everySecond Sample.idle (Sample.job 3000 (Some 1200) None)
           2000 (Sample.at_ 1600 [Sample.job 3000 (Some 1200) None])
           eq_refl eq_refl eq_refl eq_refl eq_refl).
  left. eexists. reflexivity.
Defined.

(** C10. Whatever the world, [scheduleTask] ends with the worker registered
    under [id] and with a timer handle, because both are set before the
    first store access and nothing after it touches them: this holds when
    the call is rejected for want of a database (the world is then as
    before), when the lookup is rejected by the store, and when the insert
    that follows a lookup without a result is rejected. *)
Theorem scheduleTask_registers_first
    (cronParser : string -> Date -> Error + Date)
    (this : TaskScheduler) (id cron : string) (worker : TaskWorker) (w : World) :
  let '(r, this', w') := scheduleTask cronParser this id cron worker w in
  this' = startPolling (set_taskWorkers (<[id := worker]> (taskWorkers this)) this) /\
  taskWorkers this' !! id = Some worker /\
  is_Some (pollingIntervalId this') /\
  (databasePromise this = None ->
   r = Rejected {| message := "No database configured" |} /\ w' = w) /\
  (forall db e rest,
     databasePromise this = Some db -> faults w = Some e :: rest ->
     r = Rejected e /\ collection w' = collection w) /\
  (forall db e rest nextTime,
     databasePromise this = Some db -> faults w = None :: Some e :: rest ->
     Mongo.firstMatch (Mongo.byId id) (collection w) = None ->
     cronParser cron (clock w) = inr nextTime ->
     r = Rejected e /\ collection w' = collection w).
Proof.
  pose proof (scheduleTask_scheduler cronParser this id cron worker w) as Hs.
  destruct (startPolling_running
              (set_taskWorkers (<[id := worker]> (taskWorkers this)) this))
    as (Hrun & Hw & Hdb' & _).
  cbn [databasePromise taskWorkers set_taskWorkers] in Hw, Hdb'.
  destruct (scheduleTask cronParser this id cron worker w) as [[r this'] w'] eqn:Hcall.
  cbn [fst snd] in Hs. subst this'.
  split; [reflexivity|]. split; [rewrite Hw; apply lookup_insert_eq|].
  split; [exact Hrun|].
  unfold scheduleTask in Hcall.
  unfold await at 1 in Hcall. unfold findTask, await at 1 in Hcall.
  split; [|split].
  - intros Hnone. rewrite <- Hdb' in Hnone.
    rewrite (getMongoCollection_missing _ _ Hnone) in Hcall.
    inversion Hcall. auto.
  - intros db e rest Hdb Hf. rewrite <- Hdb' in Hdb.
    rewrite (getMongoCollection_configured _ _ _ Hdb) in Hcall.
    unfold Mongo.findOne, await, Mongo.roundTrip in Hcall. rewrite Hf in Hcall.
    inversion Hcall. auto.
  - intros db e rest nextTime Hdb Hf Hnew Hcron. rewrite <- Hdb' in Hdb.
    rewrite (getMongoCollection_configured _ _ _ Hdb) in Hcall.
    unfold Mongo.findOne, await, Mongo.roundTrip, now in Hcall.
    rewrite Hf in Hcall. cbn [collection set_faults clock] in Hcall.
    rewrite Hnew, Hcron in Hcall.
    unfold insertTask, await, Mongo.insertOne, await, Mongo.roundTrip in Hcall.
    rewrite (getMongoCollection_configured _ _ _ Hdb) in Hcall.
    cbn [faults set_faults] in Hcall.
    inversion Hcall. auto.
Qed.

Lemma scheduleTask_registers_first_witness :
  databasePromise newTaskScheduler = None /\
  exists this',
    scheduleTask utcCron newTaskScheduler "job" Sample.everySecond Sample.idle
      (Sample.at_ 1600 []) =
      (Rejected {| message := "No database configured" |}, this',
       Sample.at_ 1600 []) /\
    taskWorkers this' !! "job" = Some Sample.idle /\
    is_Some (pollingIntervalId this').
Proof.
  split; [reflexivity|].
  pose proof (scheduleTask_registers_first utcCron newTaskScheduler "job"
                Sample.everySecond Sample.idle (Sample.at_ 1600 [])) as H.
  destruct (scheduleTask utcCron newTaskScheduler "job" Sample.everySecond
              Sample.idle (Sample.at_ 1600 [])) as [[r this'] w'].
  destruct H as (_ & Hreg & Htimer & Hnodb & _).
  destruct (Hnodb eq_refl) as [-> ->].
  exists this'. auto.
Defined.

(** ** The polling cycle: [poll] *)

(** C3, at a failing input. The record of ["job"] is due and free, the
    claim succeeds, the worker returns at once, and the store rejects the
    write of [completeTask]: the promise of [poll] is rejected with the
    store's error, [errorHandler] has not been called, and the record keeps
    the lease of the claim. *)
Theorem poll_settlement_error_escapes :
  poll utcCron Sample.sched
    {| clock := 5000; collection := [Sample.job 2000 None None];
       faults := [None; Some Sample.outage]; reported := [] |} =
  (Rejected Sample.outage,
   {| clock := 5000; collection := [Sample.job 2000 (Some 5000) None];
      faults := []; reported := [] |}).
Proof. vm_compute. reflexivity. Qed.

(** The same for every claimed task and every world: when the first round
    trip of the settlement write is rejected, [poll_settle] is rejected
    with that error, on the completion path without any call of
    [errorHandler], on the release path with the worker's error reported
    and the store's error not. *)
Lemma poll_settle_write_rejected (cronParser : string -> Date -> Error + Date)
    (this : TaskScheduler) (db : MongoDb) (task : TaskDefinition)
    (nextTime : Date) (e : Error) (rest : list (option Error)) (w : World) :
  databasePromise this = Some db ->
  faults w = Some e :: rest ->
  cronParser (cronSchedule task) (clock w + 1000) = inr nextTime ->
  (forall output,
     poll_settle cronParser this task (Fulfilled output) w =
       (Rejected e, set_faults rest w)) /\
  (forall error,
     poll_settle cronParser this task (Rejected error) w =
       (Rejected e, set_faults rest (set_reported (reported w ++ [error]) w))).
Proof.
  intros Hdb Hf Hcron. split.
  - intros output. unfold poll_settle, completeTask. rewrite Hcron.
    unfold updateTask, await, Mongo.updateOne, await, Mongo.roundTrip.
    rewrite (getMongoCollection_configured _ _ _ Hdb), Hf. reflexivity.
  - intros error. unfold poll_settle, errorHandler, releaseTask.
    cbn [clock set_reported]. rewrite Hcron.
    unfold updateTask, await, Mongo.updateOne, await, Mongo.roundTrip.
    rewrite (getMongoCollection_configured _ _ _ Hdb).
    cbn [faults set_reported]. rewrite Hf. reflexivity.
Qed.

(** On the release path, at a failing input: the worker throws, its error
    is reported, and the rejection of the write of [releaseTask] leaves [poll]
    rejected with the store's error, which is not reported. *)
Lemma poll_release_error_escapes :
  poll utcCron (Sample.schedWith Sample.failing)
    {| clock := 5000; collection := [Sample.job 2000 None None];
       faults := [None; Some Sample.outage]; reported := [] |} =
  (Rejected Sample.outage,
   {| clock := 5000; collection := [Sample.job 2000 (Some 5000) None];
      faults := []; reported := [{| message := "boom" |}] |}).
Proof. vm_compute. reflexivity. Qed.

(** With the store reachable the same two cycles end well: the error of a
    worker is reported once and recorded by [releaseTask]. *)
Lemma poll_release_healthy :
  poll utcCron (Sample.schedWith Sample.failing)
    (Sample.at_ 5000 [Sample.job 2000 None None]) =
  (Fulfilled tt,
   {| clock := 5000;
      collection :=
        [{| _id := "job"; cronSchedule := Sample.everySecond;
            nextScheduledTime := 7000; receivedTime := None;
            lastErroredTime := Some 5000; lastCompletedTime := None;
            executionLog := Some [ErroredEntry 5000 0 5000 "boom"] |}];
      faults := []; reported := [{| message := "boom" |}] |}).
Proof. vm_compute. reflexivity. Qed.

(** [receiveTask] never rejects: an error of the claim is reported and the
    cycle goes on as if nothing had been claimed. *)
Lemma receiveTask_never_rejects (this : TaskScheduler) (w : World) :
  exists r w', receiveTask this w = (Fulfilled r, w').
Proof.
  unfold receiveTask, tryCatch, await, now, errorHandler, resolve.
  destruct (getMongoCollection this w) as [[db|e] w1]; [|eauto].
  unfold Mongo.findOneAndUpdate, await.
  destruct (Mongo.roundTrip w1) as [[[]|e] w2]; eauto.
Qed.


(** ** Cycles of one process *)

(** C9, as stated, fails: two records are due, the timer fires, and fires
    again one period later while the worker of the first cycle is still
    running; the second cycle claims the other record and two tasks are in
    flight in the one process. *)
Lemma cycles_overlap :
  inFlight
    (run utcCron [TimerFires; TimePasses 1000; TimerFires]
       (Sample.idleProcess
          (Sample.at_ 5000 [Sample.job 2000 None None; Sample.other 3000]))) =
  [Sample.job 2000 (Some 5000) None;
   Update.put_receivedTime (Some 6000) (Sample.other 3000)] /\
  length
    (inFlight
       (run utcCron [TimerFires; TimePasses 1000; TimerFires]
          (Sample.idleProcess
             (Sample.at_ 5000 [Sample.job 2000 None None; Sample.other 3000])))) =
  2%nat.
Proof. split; vm_compute; reflexivity. Qed.

Lemma timerFires_inFlight (cronParser : string -> Date -> Error + Date)
    (p : Process) :
  inFlight (timerFires cronParser p) = inFlight p \/
  exists task, inFlight (timerFires cronParser p) = inFlight p ++ [task].
Proof.
  unfold timerFires.
  destruct (pollingIntervalId (scheduler p)); [|auto].
  destruct (receiveTask (scheduler p) (world p)) as [[[task|]|e] w]; auto.
  destruct (taskWorkers (scheduler p) !! _id task); [eauto|].
  destruct (processTask (scheduler p) task w) as [r w1].
  destruct (poll_settle cronParser (scheduler p) task r w1). auto.
Qed.

Lemma step_inFlight (cronParser : string -> Date -> Error + Date)
    (p : Process) (e : Event) :
  (length (inFlight (step cronParser p e)) <=
   length (inFlight p) + cyclesStarted [e])%nat.
Proof.
  destruct e as [|i r|dt]; simpl.
  - destruct (timerFires_inFlight cronParser p) as [->|[task ->]];
      rewrite ?length_app; simpl; lia.
  - unfold workerSettles.
    destruct (inFlight p !! i) eqn:Hi; [|lia].
    destruct (poll_settle cronParser (scheduler p) t r (world p)).
    simpl. rewrite length_delete; [lia | eauto].
  - lia.
Qed.

Lemma cyclesStarted_cons (e : Event) (evs : list Event) :
  cyclesStarted (e :: evs) = (cyclesStarted [e] + cyclesStarted evs)%nat.
Proof. destruct e; reflexivity. Qed.

(** C9, amended. The timer starts a cycle at every firing whether or not
    earlier cycles have settled: while the timer runs, a firing whose claim
    returns a record with a registered worker adds that record to the tasks
    in flight, whatever is in flight already.  Each cycle claims at most
    one task, so over any run the tasks in flight never exceed those at the
    start by more than the number of cycles started. *)
Theorem cycles_claim_one_each (cronParser : string -> Date -> Error + Date)
    (p : Process) :
  (forall task w worker,
     is_Some (pollingIntervalId (scheduler p)) ->
     receiveTask (scheduler p) (world p) = (Fulfilled (Some task), w) ->
     taskWorkers (scheduler p) !! _id task = Some worker ->
     inFlight (timerFires cronParser p) = inFlight p ++ [task]) /\
  (forall evs,
     (length (inFlight (run cronParser evs p)) <=
      length (inFlight p) + cyclesStarted evs)%nat).
Proof.
  split.
  - intros task w worker [h Hh] Hclaim Hworker. unfold timerFires.
    rewrite Hh, Hclaim, Hworker. reflexivity.
  - intros evs. revert p. induction evs as [|e evs IH]; intros p.
    + simpl. lia.
    + rewrite cyclesStarted_cons. unfold run. cbn [fold_left].
      pose proof (IH (step cronParser p e)) as H1. unfold run in H1.
      pose proof (step_inFlight cronParser p e) as H2. lia.
Qed.

Lemma cycles_claim_one_each_witness :
  is_Some (pollingIntervalId Sample.sched) /\
  inFlight
    (timerFires utcCron
       {| scheduler := Sample.sched;
          world := Sample.at_ 6000 [Sample.job 2000 (Some 5000) None;
                                    Sample.other 3000];
          inFlight := [Sample.job 2000 (Some 5000) None] |}) =
  [Sample.job 2000 (Some 5000) None;
   Update.put_receivedTime (Some 6000) (Sample.other 3000)].
Proof.
  split; [eexists; reflexivity|].
  exact (proj1 (cycles_claim_one_each utcCron
                  {| scheduler := Sample.sched;
                     world := Sample.at_ 6000 [Sample.job 2000 (Some 5000) None;
                                               Sample.other 3000];
                     inFlight := [Sample.job 2000 (Some 5000) None] |})
               (Update.put_receivedTime (Some 6000) (Sample.other 3000))
               (Sample.at_ 6000 [Sample.job 2000 (Some 5000) None;
                                 Update.put_receivedTime (Some 6000)
                                   (Sample.other 3000)])
               Sample.idle
               (ex_intro _ 1%positive eq_refl) eq_refl eq_refl).
Defined.

(** ** The bound on the execution log *)

(** C5, at a failing input. The record of ["job"] holds nine entries. A
    cycle claims it; its worker runs for longer than [processingTimeout]
    without a renewal, so a later cycle claims the record again; both
    copies carry nine entries, both workers return, and neither
    [updateTask] evicts: the stored log ends with eleven entries.  The
    run is given as events of the process and, once more, as the four
    method calls it consists of. *)
Theorem executionLog_exceeds_ten :
  Sample.jobLogLength
    (Sample.at_ 100000 [Sample.job 2000 None (Some Sample.nineRuns)]) =
    Some 9%nat /\
  Sample.jobLogLength
    (world
       (run utcCron
          [TimerFires; TimePasses 61000; TimerFires;
           WorkerSettles 0 (Fulfilled None); WorkerSettles 0 (Fulfilled None)]
          (Sample.idleProcess
             (Sample.at_ 100000 [Sample.job 2000 None (Some Sample.nineRuns)])))) =
    Some 11%nat /\
  Sample.jobLogLength <$>
    Sample.claimTwiceThenComplete 61000
      (Sample.at_ 100000 [Sample.job 2000 None (Some Sample.nineRuns)]) =
    Some (Some 11%nat).
Proof. repeat split; vm_compute; reflexivity. Qed.

(** In a cycle that nothing interleaves with, the claimed copy carries the
    stored log, and settlement keeps a log of at most ten entries within
    ten, dropping the oldest entry of a full log. *)
Lemma completeTask_log_bounded (cronParser : string -> Date -> Error + Date)
    (this : TaskScheduler) (db : MongoDb) (task d : TaskDefinition)
    (nextTime : Date) (output : option string) (w : World) :
  databasePromise this = Some db ->
  faults w = [] ->
  Mongo.firstMatch (Mongo.byId (_id task)) (collection w) = Some d ->
  cronParser (cronSchedule task) (clock w + 1000) = inr nextTime ->
  executionLog task = executionLog d ->
  (length (default [] (executionLog d)) <= 10)%nat ->
  exists w' d' log',
    completeTask cronParser this task output w = (inr (Fulfilled tt), w') /\
    Mongo.firstMatch (Mongo.byId (_id task)) (collection w') = Some d' /\
    executionLog d' = Some log' /\
    (length log' <= 10)%nat /\
    (length (default [] (executionLog d)) = 10%nat ->
     exists e, log' = tail (default [] (executionLog d)) ++ [e]).
Proof.
  intros Hdb Hf Hd Hcron Hlog Hlen. unfold completeTask. rewrite Hcron.
  run_updateTask Hdb Hf Hd. rewrite Hlog in Hst.
  match type of Hst with context [Update.push_executionLog ?e _] =>
    destruct (push_evict_bounded (default [] (executionLog d)) e Hlen)
      as [Hb Hfull] end.
  destruct (10 <=? length (default [] (executionLog d)))%nat;
    eexists w', _, _; (split; [reflexivity|]); (split; [exact Hst|]);
    (split; [reflexivity|]); split; eauto.
Qed.

(** * Further properties of the class *)

(** ** What the writes leave alone *)

Lemma onlyTouches_refl (id : string) (c : list TaskDefinition) :
  onlyTouches id c c.
Proof. unfold onlyTouches. induction c; constructor; auto. Qed.

Lemma onlyTouches_trans (id : string) (c1 c2 c3 : list TaskDefinition) :
  onlyTouches id c1 c2 -> onlyTouches id c2 c3 -> onlyTouches id c1 c3.
Proof.
  unfold onlyTouches. intros H12. revert c3.
  induction H12 as [|x y c1 c2 [Hi Hx] _ IH]; intros c3 H23.
  - inversion H23. constructor.
  - inversion H23 as [|y' z c2' c3' [Hi' Hy] Hrest]; subst.
    constructor; [|apply IH; exact Hrest].
    split; [congruence|]. intros Hne. rewrite Hy by congruence. auto.
Qed.

Lemma onlyTouches_ids (id : string) (c c' : list TaskDefinition) :
  onlyTouches id c c' -> map _id c' = map _id c.
Proof.
  unfold onlyTouches. induction 1 as [|x y c c' [Hi _] _ IH]; simpl; congruence.
Qed.

Lemma onlyTouches_other (id id' : string) (c c' : list TaskDefinition) :
  onlyTouches id c c' -> id' <> id ->
  Mongo.firstMatch (Mongo.byId id') c' = Mongo.firstMatch (Mongo.byId id') c.
Proof.
  unfold onlyTouches, Mongo.firstMatch, Mongo.byId.
  induction 1 as [|x y c c' [Hi Hx] _ IH]; intros Hne; simpl; [reflexivity|].
  rewrite Hi. destruct (bool_decide (_id x = id')) eqn:Hb.
  - apply bool_decide_eq_true in Hb. rewrite Hx by congruence. reflexivity.
  - apply IH. exact Hne.
Qed.

Lemma updateFirst_onlyTouches (id : string)
    (u : TaskDefinition -> TaskDefinition) (c : list TaskDefinition) :
  (forall x, _id (u x) = _id x) ->
  onlyTouches id c (Mongo.updateFirst (Mongo.byId id) u c).
Proof.
  intros Hu. unfold onlyTouches, Mongo.byId.
  induction c as [|x c IH]; simpl; [constructor|].
  destruct (bool_decide (_id x = id)) eqn:Hb.
  - apply bool_decide_eq_true in Hb. constructor.
    + split; [apply Hu | congruence].
    + apply (onlyTouches_refl id).
  - constructor; auto.
Qed.

Lemma leaseOnly_refl (c : list TaskDefinition) : leaseOnly c c.
Proof.
  unfold leaseOnly. induction c as [|x c IH]; constructor; auto.
  destruct x; reflexivity.
Qed.

Lemma updateFirst_leaseOnly (q : TaskDefinition -> bool) (r : option Date)
    (c : list TaskDefinition) :
  leaseOnly c (Mongo.updateFirst q (Update.put_receivedTime r) c).
Proof.
  unfold leaseOnly. induction c as [|x c IH]; simpl; [constructor|].
  destruct (q x).
  - constructor; [reflexivity | apply leaseOnly_refl].
  - constructor; [destruct x; reflexivity | exact IH].
Qed.

Lemma leaseOnly_ids (c c' : list TaskDefinition) :
  leaseOnly c c' -> map _id c' = map _id c.
Proof.
  unfold leaseOnly. induction 1 as [|x y c c' Hy _ IH]; simpl; [reflexivity|].
  rewrite Hy, IH. reflexivity.
Qed.

(** [updateTask] in every world, whether its round trips succeed or not. *)
Lemma updateTask_onlyTouches (this : TaskScheduler) (task : TaskDefinition)
    (update : TaskDefinition -> TaskDefinition) (w : World) :
  (forall x, _id (update x) = _id x) ->
  onlyTouches (_id task) (collection w)
    (collection (updateTask this task update w).2) /\
  clock (updateTask this task update w).2 = clock w /\
  reported (updateTask this task update w).2 = reported w.
Proof.
  intros Hu. unfold updateTask, await, getMongoCollection.
  destruct (databasePromise this) as [db|]; cbn [throw resolve];
    [|split; [apply onlyTouches_refl | auto]].
  unfold Mongo.updateOne, await, Mongo.roundTrip.
  destruct (faults w) as [|[e|] rest] eqn:Hf; cbn [snd fst];
    try (split; [apply onlyTouches_refl | auto]; fail).
  - destruct (10 <=? length (default [] (executionLog task)))%nat.
    + cbn [faults set_collection]. rewrite Hf. cbn [snd collection clock reported].
      split; [|auto].
      eapply onlyTouches_trans; apply updateFirst_onlyTouches; auto.
    + cbn. split; [|auto]. apply updateFirst_onlyTouches; auto.
  - destruct (10 <=? length (default [] (executionLog task)))%nat.
    + cbn [faults set_collection set_faults].
      destruct rest as [|[e|] rest']; cbn; (split; [|auto]);
        try (eapply onlyTouches_trans; apply updateFirst_onlyTouches; auto; fail);
        apply updateFirst_onlyTouches; auto.
    + cbn. split; [|auto]. apply updateFirst_onlyTouches; auto.
Qed.

Lemma completeTask_onlyTouches (cronParser : string -> Date -> Error + Date)
    (this : TaskScheduler) (task : TaskDefinition) (output : option string)
    (w : World) :
  onlyTouches (_id task) (collection w)
    (collection (completeTask cronParser this task output w).2) /\
  reported (completeTask cronParser this task output w).2 = reported w.
Proof.
  unfold completeTask.
  destruct (cronParser (cronSchedule task) (clock w + 1000)) as [e|nextTime];
    [split; [apply onlyTouches_refl | reflexivity]|].
  match goal with |- context [updateTask this task ?u w] =>
    pose proof (updateTask_onlyTouches this task u w ltac:(reflexivity))
      as (H & _ & Hr);
    destruct (updateTask this task u w) end.
  auto.
Qed.

Lemma releaseTask_onlyTouches (cronParser : string -> Date -> Error + Date)
    (this : TaskScheduler) (task : TaskDefinition) (error : Error) (w : World) :
  onlyTouches (_id task) (collection w)
    (collection (releaseTask cronParser this task error w).2) /\
  reported (releaseTask cronParser this task error w).2 = reported w.
Proof.
  unfold releaseTask.
  destruct (cronParser (cronSchedule task) (clock w + 1000)) as [e|nextTime];
    [split; [apply onlyTouches_refl | reflexivity]|].
  match goal with |- context [updateTask this task ?u w] =>
    pose proof (updateTask_onlyTouches this task u w ltac:(reflexivity))
      as (H & _ & Hr);
    destruct (updateTask this task u w) end.
  auto.
Qed.

(** X1. In every world, reachable store or not, [completeTask] and
    [releaseTask] leave every record under another id exactly as it was,
    keep the id of every record, and add, remove or move none. *)
Theorem settlement_touches_one_id (cronParser : string -> Date -> Error + Date)
    (this : TaskScheduler) (task : TaskDefinition) (w : World) :
  (forall output,
     onlyTouches (_id task) (collection w)
       (collection (completeTask cronParser this task output w).2)) /\
  (forall error,
     onlyTouches (_id task) (collection w)
       (collection (releaseTask cronParser this task error w).2)).
Proof.
  split.
  - intros output. apply completeTask_onlyTouches.
  - intros error. apply releaseTask_onlyTouches.
Qed.

Lemma findOneAndUpdate_lease (q : TaskDefinition -> bool) (r : option Date)
    (w : World) :
  leaseOnly (collection w)
    (collection (Mongo.findOneAndUpdate q (Update.put_receivedTime r) w).2) /\
  reported (Mongo.findOneAndUpdate q (Update.put_receivedTime r) w).2 = reported w.
Proof.
  unfold Mongo.findOneAndUpdate, await, Mongo.roundTrip.
  destruct (faults w) as [|[e|] rest]; cbn;
    (split; [|reflexivity]);
    first [apply updateFirst_leaseOnly | apply leaseOnly_refl].
Qed.

Lemma receiveTask_leaseOnly (this : TaskScheduler) (w : World) :
  leaseOnly (collection w) (collection (receiveTask this w).2).
Proof.
  unfold receiveTask, tryCatch, await, now, getMongoCollection, errorHandler.
  destruct (databasePromise this) as [db|]; cbn [throw resolve];
    [|apply leaseOnly_refl].
  pose proof (findOneAndUpdate_lease (receiveQuery this (clock w))
                (Some (clock w)) w) as [H _].
  destruct (Mongo.findOneAndUpdate _ _ w) as [[r|e] w']; exact H.
Qed.

Lemma signalProgress_leaseOnly (this : TaskScheduler) (task : TaskDefinition)
    (w : World) :
  leaseOnly (collection w)
    (collection (processTask_signalProgress this task w).2).
Proof.
  unfold processTask_signalProgress, await, now, getMongoCollection.
  destruct (databasePromise this) as [db|]; cbn [throw resolve];
    [|apply leaseOnly_refl].
  pose proof (findOneAndUpdate_lease (renewQuery this task (clock w))
                (Some (clock w)) w) as [H _].
  destruct (Mongo.findOneAndUpdate _ _ w) as [[[r|]|e] w']; exact H.
Qed.

(** X2. In every world, the claim and the renewal write nothing but
    [receivedTime]: after [receiveTask] and after [signalProgress] every
    record is the record it was, up to that one field, and none is added,
    removed or moved. *)
Theorem claim_and_renewal_write_lease_only (this : TaskScheduler) (w : World) :
  leaseOnly (collection w) (collection (receiveTask this w).2) /\
  (forall task,
     leaseOnly (collection w)
       (collection (processTask_signalProgress this task w).2)).
Proof.
  split; [apply receiveTask_leaseOnly | intros task; apply signalProgress_leaseOnly].
Qed.

Lemma firstMatch_byId_none (id : string) (c : list TaskDefinition) :
  Mongo.firstMatch (Mongo.byId id) c = None -> id ∉ map _id c.
Proof.
  unfold Mongo.firstMatch, Mongo.byId.
  induction c as [|x c IH]; simpl; [intros _; apply not_elem_of_nil|].
  destruct (bool_decide (_id x = id)) eqn:Hb; [discriminate|].
  apply bool_decide_eq_false in Hb. intros H.
  rewrite not_elem_of_cons. split; [congruence | exact (IH H)].
Qed.

Lemma findTask_cases (this : TaskScheduler) (id : string) (w : World) :
  exists w1,
    collection w1 = collection w /\ clock w1 = clock w /\
    reported w1 = reported w /\
    ((exists e, findTask this id w = (Rejected e, w1)) \/
     findTask this id w =
       (Fulfilled (Mongo.firstMatch (Mongo.byId id) (collection w)), w1)).
Proof.
  unfold findTask, await, getMongoCollection.
  destruct (databasePromise this) as [db|]; cbn [throw resolve].
  - unfold Mongo.findOne, await, Mongo.roundTrip.
    destruct (faults w) as [|[e|] rest]; eexists;
      (split; [|split; [|split]]);
      try (right; reflexivity); try (left; eexists; reflexivity); reflexivity.
  - exists w. repeat split; auto. left. eexists. reflexivity.
Qed.

Lemma insertTask_collection (this : TaskScheduler) (d : TaskDefinition) (w : World) :
  collection (insertTask this d w).2 = collection w \/
  (Mongo.firstMatch (Mongo.byId (_id d)) (collection w) = None /\
   collection (insertTask this d w).2 = collection w ++ [d]).
Proof.
  unfold insertTask, await, getMongoCollection.
  destruct (databasePromise this) as [db|]; cbn [throw resolve]; [|auto].
  unfold Mongo.insertOne, await, Mongo.roundTrip.
  destruct (faults w) as [|[e|] rest]; cbn [collection set_faults]; auto;
    destruct (Mongo.firstMatch (Mongo.byId (_id d)) (collection w)); auto.
Qed.

(** What [scheduleTask] does to the collection in every world: it rewrites
    records under [id] at most, or appends one record under [id] when no
    record was stored under it. *)
Lemma scheduleTask_collection (cronParser : string -> Date -> Error + Date)
    (this : TaskScheduler) (id cron : string) (worker : TaskWorker) (w : World) :
  onlyTouches id (collection w)
    (collection (scheduleTask cronParser this id cron worker w).2) \/
  exists d,
    _id d = id /\
    Mongo.firstMatch (Mongo.byId id) (collection w) = None /\
    collection (scheduleTask cronParser this id cron worker w).2 =
      collection w ++ [d].
Proof.
  destruct (scheduleTask cronParser this id cron worker w) as [[r this''] w']
    eqn:Hcall.
  cbn [snd]. unfold scheduleTask in Hcall.
  set (this' := startPolling _) in Hcall.
  unfold await at 1 in Hcall.
  destruct (findTask_cases this' id w) as (w1 & Hc & _ & _ & [[e He]|Hfind]).
  - rewrite He in Hcall. inversion Hcall; subst.
    rewrite Hc. left. apply onlyTouches_refl.
  - rewrite Hfind in Hcall. unfold await, now in Hcall.
    destruct (cronParser cron (clock w1)) as [e|nextTime]; cbn [throw] in Hcall.
    { inversion Hcall; subst. rewrite Hc. left. apply onlyTouches_refl. }
    destruct (Mongo.firstMatch (Mongo.byId id) (collection w)) as [task|] eqn:Hstored.
    + left. pose proof (firstMatch_byId _ _ _ Hstored) as Hid.
      destruct (negb (cronSchedule task =? cron)%string
                || negb (bool_decide (is_Some (receivedTime task)))
                   && (nextTime <? nextScheduledTime task)).
      * match type of Hcall with context [updateTask this' task ?u w1] =>
          pose proof (updateTask_onlyTouches this' task u w1 ltac:(reflexivity))
            as [H _];
          destruct (updateTask this' task u w1) end.
        inversion Hcall; subst. cbn [snd] in H. rewrite Hc in H. exact H.
      * inversion Hcall; subst. rewrite Hc. apply onlyTouches_refl.
    + match type of Hcall with context [insertTask this' ?d w1] =>
        pose proof (insertTask_collection this' d w1) as H;
        destruct (insertTask this' d w1) end.
      inversion Hcall; subst.
      cbn [snd _id] in H. rewrite Hc in H. destruct H as [->|[_ ->]].
      * left. apply onlyTouches_refl.
      * right. refine (ex_intro _ _ (conj _ (conj _ eq_refl))); reflexivity.
Qed.

Lemma uniqueIds_onlyTouches (id : string) (c c' : list TaskDefinition) :
  onlyTouches id c c' -> uniqueIds c -> uniqueIds c'.
Proof. unfold uniqueIds. intros H. rewrite (onlyTouches_ids _ _ _ H). auto. Qed.

Lemma uniqueIds_leaseOnly (c c' : list TaskDefinition) :
  leaseOnly c c' -> uniqueIds c -> uniqueIds c'.
Proof. unfold uniqueIds. intros H. rewrite (leaseOnly_ids _ _ H). auto. Qed.

(** X3. [_id] stays a key: in every world, when no two stored records
    share an id, none do after [scheduleTask], [receiveTask],
    [signalProgress], [completeTask] or [releaseTask]. *)
Theorem methods_keep_ids_unique (cronParser : string -> Date -> Error + Date)
    (this : TaskScheduler) (w : World) :
  uniqueIds (collection w) ->
  (forall id cron worker,
     uniqueIds (collection (scheduleTask cronParser this id cron worker w).2)) /\
  uniqueIds (collection (receiveTask this w).2) /\
  (forall task,
     uniqueIds (collection (processTask_signalProgress this task w).2)) /\
  (forall task output,
     uniqueIds (collection (completeTask cronParser this task output w).2)) /\
  (forall task error,
     uniqueIds (collection (releaseTask cronParser this task error w).2)).
Proof.
  intros Hu. repeat split.
  - intros id cron worker.
    destruct (scheduleTask_collection cronParser this id cron worker w)
      as [H|(d & Hid & Hnone & ->)].
    + exact (uniqueIds_onlyTouches _ _ _ H Hu).
    + unfold uniqueIds in *. rewrite map_app. simpl.
      apply NoDup_app. split; [exact Hu|]. split.
      * intros x Hx Hx'. apply list_elem_of_singleton in Hx'. subst x.
        apply (firstMatch_byId_none _ _ Hnone). rewrite <- Hid. exact Hx.
      * apply NoDup_singleton.
  - exact (uniqueIds_leaseOnly _ _ (receiveTask_leaseOnly this w) Hu).
  - intros task.
    exact (uniqueIds_leaseOnly _ _ (signalProgress_leaseOnly this task w) Hu).
  - intros task output.
    exact (uniqueIds_onlyTouches _ _ _
             (proj1 (completeTask_onlyTouches cronParser this task output w)) Hu).
  - intros task error.
    exact (uniqueIds_onlyTouches _ _ _
             (proj1 (releaseTask_onlyTouches cronParser this task error w)) Hu).
Qed.

Lemma methods_keep_ids_unique_witness :
  uniqueIds (collection (Sample.at_ 5000 [Sample.other 9000;
                                          Sample.job 2000 None None])) /\
  uniqueIds
    (collection
       (scheduleTask utcCron Sample.sched "third" Sample.everyMinute Sample.idle
          (Sample.at_ 5000 [Sample.other 9000; Sample.job 2000 None None])).2).
Proof.
  assert (H : uniqueIds (collection (Sample.at_ 5000 [Sample.other 9000;
                                                      Sample.job 2000 None None]))).
  { unfold uniqueIds. apply (bool_decide_unpack _). vm_compute. exact I. }
  split; [exact H|].
  exact (proj1 (methods_keep_ids_unique utcCron Sample.sched _ H)
           "third" Sample.everyMinute Sample.idle).
Defined.

(** ** The lease *)

(** A claim that returns a record has found it in the collection. *)
Lemma receiveTask_some (this : TaskScheduler) (w w' : World)
    (task : TaskDefinition) :
  receiveTask this w = (Fulfilled (Some task), w') ->
  exists d before after,
    collection w = before ++ d :: after /\
    Forall (fun x => receiveQuery this (clock w) x = false) before /\
    receiveQuery this (clock w) d = true /\
    task = Update.put_receivedTime (Some (clock w)) d /\
    collection w' = before ++ task :: after /\
    clock w' = clock w /\ reported w' = reported w.
Proof.
  unfold receiveTask, tryCatch, await, now, getMongoCollection, errorHandler.
  destruct (databasePromise this) as [db|]; cbn [throw resolve];
    [|intros [=]].
  unfold Mongo.findOneAndUpdate, await, Mongo.roundTrip.
  assert (Hgo : forall w1 : World, collection w1 = collection w ->
            clock w1 = clock w -> reported w1 = reported w ->
            (Fulfilled (Update.put_receivedTime (Some (clock w)) <$>
                          Mongo.firstMatch (receiveQuery this (clock w)) (collection w1)),
             set_collection
               (Mongo.updateFirst (receiveQuery this (clock w))
                  (Update.put_receivedTime (Some (clock w))) (collection w1)) w1) =
            (Fulfilled (Some task), w') ->
            exists d before after,
              collection w = before ++ d :: after /\
              Forall (fun x => receiveQuery this (clock w) x = false) before /\
              receiveQuery this (clock w) d = true /\
              task = Update.put_receivedTime (Some (clock w)) d /\
              collection w' = before ++ task :: after /\
              clock w' = clock w /\ reported w' = reported w).
  { intros w1 Hc Hk Hr Heq. rewrite Hc in Heq.
    destruct (Mongo.firstMatch (receiveQuery this (clock w)) (collection w))
      as [d|] eqn:Hd; [|discriminate].
    destruct (updateFirst_match _ (Update.put_receivedTime (Some (clock w))) _ _ Hd)
      as (before & after & Hsplit & Hb & Hq & Hu).
    rewrite Hu in Heq. inversion Heq; subst task w'.
    exists d, before, after. cbn [collection clock reported set_collection].
    repeat split; auto. }
  destruct (faults w) as [|[e|] rest].
  - apply Hgo; reflexivity.
  - intros [=].
  - apply Hgo; reflexivity.
Qed.

Lemma receiveQuery_registered (this : TaskScheduler) (t : Date)
    (d : TaskDefinition) :
  receiveQuery this t d = true -> is_Some (taskWorkers this !! _id d).
Proof. intros H. apply receiveQuery_spec in H. tauto. Qed.

(** X4. A record that [receiveTask] returns has a worker registered in the
    scheduler that claimed it: [processTask] on it, in the same cycle, calls
    that worker and cannot fail for want of one.  The record was due, and
    its [receivedTime] is the instant of the claim. *)
Theorem claimed_task_has_worker (this : TaskScheduler) (w w' : World)
    (task : TaskDefinition) :
  receiveTask this w = (Fulfilled (Some task), w') ->
  (exists worker,
     taskWorkers this !! _id task = Some worker /\
     forall w2,
       processTask this task w2 =
         worker {| signalProgress := processTask_signalProgress this task |} w2) /\
  nextScheduledTime task < clock w /\
  receivedTime task = Some (clock w).
Proof.
  intros Hclaim.
  destruct (receiveTask_some _ _ _ _ Hclaim)
    as (d & before & after & _ & _ & Hq & -> & _).
  pose proof (receiveQuery_spec this (clock w) d) as [Hspec _].
  destruct (Hspec Hq) as ([worker Hw] & Hdue & _).
  split; [|split; [exact Hdue | reflexivity]].
  change (_id (Update.put_receivedTime (Some (clock w)) d)) with (_id d).
  exists worker. split; [exact Hw|].
  intros w2. unfold processTask.
  change (_id (Update.put_receivedTime (Some (clock w)) d)) with (_id d).
  unfold TaskWorker in *. rewrite Hw. reflexivity.
Qed.

Lemma claimed_task_has_worker_witness :
  receiveTask Sample.sched
    (Sample.at_ 5000 [Sample.other 9000; Sample.job 2000 None None]) =
  (Fulfilled (Some (Sample.job 2000 (Some 5000) None)),
   Sample.at_ 5000 [Sample.other 9000; Sample.job 2000 (Some 5000) None]) /\
  nextScheduledTime (Sample.job 2000 (Some 5000) None) < 5000 /\
  receivedTime (Sample.job 2000 (Some 5000) None) = Some 5000.
Proof.
  split; [vm_compute; reflexivity|].
  exact (proj2 (claimed_task_has_worker Sample.sched
                  (Sample.at_ 5000 [Sample.other 9000; Sample.job 2000 None None])
                  (Sample.at_ 5000 [Sample.other 9000;
                                    Sample.job 2000 (Some 5000) None])
                  (Sample.job 2000 (Some 5000) None) eq_refl)).
Defined.

Lemma uniqueIds_same_record (c : list TaskDefinition) (x y : TaskDefinition) :
  uniqueIds c -> x ∈ c -> y ∈ c -> _id x = _id y -> x = y.
Proof.
  unfold uniqueIds. induction c as [|z c IH]; simpl.
  - intros _ Hx. inversion Hx.
  - intros Hnd. apply NoDup_cons in Hnd as [Hz Hnd]. intros Hx Hy Hid.
    apply elem_of_cons in Hx as [->|Hx]; apply elem_of_cons in Hy as [->|Hy].
    + reflexivity.
    + exfalso. apply Hz. rewrite Hid. apply list_elem_of_fmap. eauto.
    + exfalso. apply Hz. rewrite <- Hid. apply list_elem_of_fmap. eauto.
    + exact (IH Hnd Hx Hy Hid).
Qed.

(** X5. A lease excludes a second claim.  With ids unique, once
    [receiveTask] has returned a record, a [receiveTask] of any scheduler
    at an instant not later than the claim plus that scheduler's
    [processingTimeout] returns nothing or a record under another id. *)
Theorem lease_excludes_second_claim (this other : TaskScheduler) (w w' : World)
    (task : TaskDefinition) (t' : Date) :
  uniqueIds (collection w) ->
  receiveTask this w = (Fulfilled (Some task), w') ->
  t' - processingTimeout other <= clock w ->
  match (receiveTask other (set_clock t' w')).1 with
  | Fulfilled (Some task2) => _id task2 <> _id task
  | _ => True
  end.
Proof.
  intros Huniq Hclaim Hwin.
  destruct (receiveTask_some _ _ _ _ Hclaim)
    as (d & before & after & Hc & _ & _ & Htask & Hc' & _).
  destruct (receiveTask other (set_clock t' w')) as [[[task2|]|e] w''] eqn:Hsecond;
    cbn [fst]; auto.
  destruct (receiveTask_some _ _ _ _ Hsecond)
    as (d2 & b2 & a2 & Hc2 & _ & Hq2 & Htask2 & _).
  cbn [collection clock set_clock] in Hc2, Hq2, Htask2.
  intros Hid.
  assert (Huniq' : uniqueIds (collection w')).
  { pose proof (uniqueIds_leaseOnly _ _ (receiveTask_leaseOnly this w) Huniq) as H.
    rewrite Hclaim in H. exact H. }
  assert (Hd2 : d2 = task).
  { apply (uniqueIds_same_record (collection w')); auto.
    - rewrite Hc2. apply elem_of_app. right. apply elem_of_cons. auto.
    - rewrite Hc'. apply elem_of_app. right. apply elem_of_cons. auto.
    - rewrite Htask2 in Hid. exact Hid. }
  subst d2. apply receiveQuery_spec in Hq2 as (_ & _ & [Hnone|(r & Hr & Hold)]).
  - rewrite Htask in Hnone. discriminate Hnone.
  - rewrite Htask in Hr. cbn in Hr. inversion Hr; subst r. lia.
Qed.

Lemma lease_excludes_second_claim_witness :
  uniqueIds (collection (Sample.at_ 5000 [Sample.job 2000 None None])) /\
  receiveTask Sample.sched (Sample.at_ 5000 [Sample.job 2000 None None]) =
    (Fulfilled (Some (Sample.job 2000 (Some 5000) None)),
     Sample.at_ 5000 [Sample.job 2000 (Some 5000) None]) /\
  65000 - processingTimeout Sample.sched <= 5000 /\
  match (receiveTask Sample.sched
           (set_clock 65000
              (Sample.at_ 5000 [Sample.job 2000 (Some 5000) None]))).1 with
  | Fulfilled (Some task2) => _id task2 <> "job"
  | _ => True
  end.
Proof.
  assert (H : uniqueIds (collection (Sample.at_ 5000 [Sample.job 2000 None None]))).
  { unfold uniqueIds. apply (bool_decide_unpack _). vm_compute. exact I. }
  split; [exact H|]. split; [reflexivity|]. split; [vm_compute; discriminate|].
  exact (lease_excludes_second_claim Sample.sched Sample.sched
           (Sample.at_ 5000 [Sample.job 2000 None None])
           (Sample.at_ 5000 [Sample.job 2000 (Some 5000) None])
           (Sample.job 2000 (Some 5000) None) 65000 H eq_refl
           ltac:(vm_compute; discriminate)).
Defined.

(** X6. An expired lease is claimable again.  With the store reachable,
    a record that [receiveTask] has returned and that nothing has settled
    or renewed is matched again by the filter of any scheduler that has a
    worker for its id, once the instant is later than the claim plus that
    scheduler's [processingTimeout]; the [receiveTask] of that scheduler
    then returns a record. *)
Theorem expired_lease_is_reclaimed (this other : TaskScheduler) (db : MongoDb)
    (w w' : World) (task : TaskDefinition) (t' : Date) :
  receiveTask this w = (Fulfilled (Some task), w') ->
  databasePromise other = Some db ->
  faults w' = [] ->
  is_Some (taskWorkers other !! _id task) ->
  0 <= processingTimeout other ->
  clock w + processingTimeout other < t' ->
  receiveQuery other t' task = true /\
  exists task2 w'',
    receiveTask other (set_clock t' w') = (Fulfilled (Some task2), w'') /\
    receivedTime task2 = Some t'.
Proof.
  intros Hclaim Hdb Hf Hworker Hpos Hlate.
  destruct (receiveTask_some _ _ _ _ Hclaim)
    as (d & before & after & _ & _ & Hqd & Htask & Hc' & _).
  apply receiveQuery_spec in Hqd as (_ & Hdue & _).
  assert (Hlease : receivedTime task = Some (clock w)) by (rewrite Htask; reflexivity).
  assert (Hnext : nextScheduledTime task = nextScheduledTime d)
    by (rewrite Htask; reflexivity).
  assert (Hq : receiveQuery other t' task = true).
  { apply receiveQuery_spec. split; [exact Hworker|]. split; [lia|].
    right. exists (clock w). split; [exact Hlease | lia]. }
  split; [exact Hq|].
  rewrite (receiveTask_healthy other db (set_clock t' w') Hdb Hf).
  cbn [clock collection set_clock].
  destruct (Mongo.firstMatch (receiveQuery other t') (collection w'))
    as [d2|] eqn:Hfind.
  - eexists _, _. split; reflexivity.
  - exfalso. unfold Mongo.firstMatch in Hfind.
    assert (Hin : In task (collection w'))
      by (rewrite Hc'; apply in_app_iff; right; left; reflexivity).
    pose proof (find_none _ _ Hfind task Hin) as Hno.
    rewrite Hq in Hno. discriminate Hno.
Qed.

Lemma expired_lease_is_reclaimed_witness :
  receiveTask Sample.sched (Sample.at_ 5000 [Sample.job 2000 None None]) =
    (Fulfilled (Some (Sample.job 2000 (Some 5000) None)),
     Sample.at_ 5000 [Sample.job 2000 (Some 5000) None]) /\
  databasePromise Sample.sched = Some tt /\
  faults (Sample.at_ 5000 [Sample.job 2000 (Some 5000) None]) = [] /\
  is_Some (taskWorkers Sample.sched !! "job") /\
  0 <= processingTimeout Sample.sched /\
  5000 + processingTimeout Sample.sched < 65001 /\
  receiveQuery Sample.sched 65001 (Sample.job 2000 (Some 5000) None) = true.
Proof.
  assert (Hw : is_Some (taskWorkers Sample.sched !! "job"))
    by (eexists; reflexivity).
  split; [reflexivity|]. split; [reflexivity|]. split; [reflexivity|].
  split; [exact Hw|]. split; [vm_compute; discriminate|].
  split; [vm_compute; reflexivity|].
  exact (proj1 (expired_lease_is_reclaimed Sample.sched Sample.sched tt
                  (Sample.at_ 5000 [Sample.job 2000 None None])
                  (Sample.at_ 5000 [Sample.job 2000 (Some 5000) None])
                  (Sample.job 2000 (Some 5000) None) 65001
                  eq_refl eq_refl eq_refl Hw
                  ltac:(vm_compute; discriminate)
                  ltac:(vm_compute; reflexivity))).
Defined.

(** X7. No record is renewable and claimable at one instant: when the
    filter of [signalProgress] holds of a record, the filter of
    [receiveTask] of a scheduler with the same [processingTimeout] does
    not.  A record whose [receivedTime] is exactly now minus
    [processingTimeout] satisfies neither. *)
Theorem renewable_is_not_claimable (this other : TaskScheduler)
    (task d : TaskDefinition) (t : Date) :
  processingTimeout other = processingTimeout this ->
  (renewQuery this task t d = true -> receiveQuery other t d = false) /\
  (receivedTime d = Some (t - processingTimeout this) ->
   renewQuery this task t d = false /\ receiveQuery other t d = false).
Proof.
  intros Hsame. split.
  - intros Hrenew. apply renewQuery_spec in Hrenew as (_ & r & Hr & Hfresh).
    apply not_true_is_false. intros Hclaim.
    apply receiveQuery_spec in Hclaim as (_ & _ & [Hnone|(r' & Hr' & Hold)]);
      [congruence|].
    rewrite Hr in Hr'. inversion Hr'; subst. lia.
  - intros Hedge. split; apply not_true_is_false; intros H.
    + apply renewQuery_spec in H as (_ & r & Hr & Hfresh).
      rewrite Hedge in Hr. inversion Hr; subst. lia.
    + apply receiveQuery_spec in H as (_ & _ & [Hnone|(r' & Hr' & Hold)]);
        [congruence|].
      rewrite Hedge in Hr'. inversion Hr'; subst. lia.
Qed.

Lemma renewable_is_not_claimable_witness :
  processingTimeout Sample.sched = processingTimeout Sample.sched /\
  receivedTime (Sample.job 2000 (Some 5000) None) =
    Some (65000 - processingTimeout Sample.sched) /\
  renewQuery Sample.sched (Sample.job 2000 (Some 5000) None) 65000
    (Sample.job 2000 (Some 5000) None) = false /\
  receiveQuery Sample.sched 65000 (Sample.job 2000 (Some 5000) None) = false.
Proof.
  split; [reflexivity|]. split; [reflexivity|].
  exact (proj2 (renewable_is_not_claimable Sample.sched Sample.sched
                  (Sample.job 2000 (Some 5000) None)
                  (Sample.job 2000 (Some 5000) None) 65000 eq_refl) eq_refl).
Defined.

Lemma firstMatch_byId_and (id : string) (P : TaskDefinition -> bool)
    (c : list TaskDefinition) :
  uniqueIds c ->
  Mongo.firstMatch (fun x => Mongo.byId id x && P x) c =
    match Mongo.firstMatch (Mongo.byId id) c with
    | Some d => if P d then Some d else None
    | None => None
    end.
Proof.
  unfold uniqueIds, Mongo.firstMatch, Mongo.byId.
  induction c as [|x c IH]; simpl; [reflexivity|].
  intros Hnd. apply NoDup_cons in Hnd as [Hx Hnd].
  destruct (bool_decide (_id x = id)) eqn:Hb; simpl.
  - destruct (P x); [reflexivity|].
    apply bool_decide_eq_true in Hb. rewrite (IH Hnd).
    destruct (find (fun d => bool_decide (_id d = id)) c) as [y|] eqn:Hy;
      [|reflexivity].
    exfalso. apply find_some in Hy as [Hin Hid].
    apply bool_decide_eq_true in Hid. apply Hx. rewrite Hb, <- Hid.
    apply list_elem_of_fmap. exists y. split; [reflexivity|].
    apply list_elem_of_In. exact Hin.
  - exact (IH Hnd).
Qed.

Lemma updateFirst_byId_and (id : string) (P : TaskDefinition -> bool)
    (u : TaskDefinition -> TaskDefinition) (c : list TaskDefinition)
    (d : TaskDefinition) :
  Mongo.firstMatch (Mongo.byId id) c = Some d -> P d = true ->
  Mongo.updateFirst (fun x => Mongo.byId id x && P x) u c =
    Mongo.updateFirst (Mongo.byId id) u c.
Proof.
  unfold Mongo.firstMatch. induction c as [|x c IH]; simpl; [discriminate|].
  destruct (Mongo.byId id x); simpl.
  - intros [= ->] ->. reflexivity.
  - intros Hd HP. rewrite (IH Hd HP). reflexivity.
Qed.

(** X8. A renewal is decided by the stored record under the task's id, not
    by the copy the worker holds.  With the store reachable and ids unique:
    when that record carries a [receivedTime] newer than now minus
    [processingTimeout], [signalProgress] is fulfilled, the record gets
    [receivedTime] set to now and nothing else in the collection changes;
    when the record carries no [receivedTime] or an older one, or no record
    is stored under the id, the call is rejected with the lease-expired
    error and the world is as before.  Any two copies with the same id give
    the same call. *)
Theorem renewal_by_stored_lease (this : TaskScheduler) (db : MongoDb)
    (task : TaskDefinition) (w : World) :
  databasePromise this = Some db ->
  faults w = [] ->
  uniqueIds (collection w) ->
  (forall d r,
     Mongo.firstMatch (Mongo.byId (_id task)) (collection w) = Some d ->
     receivedTime d = Some r ->
     clock w - processingTimeout this < r ->
     exists w',
       processTask_signalProgress this task w = (Fulfilled tt, w') /\
       Mongo.firstMatch (Mongo.byId (_id task)) (collection w') =
         Some (Update.put_receivedTime (Some (clock w)) d) /\
       onlyTouches (_id task) (collection w) (collection w')) /\
  (match Mongo.firstMatch (Mongo.byId (_id task)) (collection w) with
   | Some d =>
       match receivedTime d with
       | Some r => r <= clock w - processingTimeout this
       | None => True
       end
   | None => True
   end ->
   processTask_signalProgress this task w =
     (Rejected {| message := "Task expired or no longer exists" |}, w)) /\
  (forall task',
     _id task' = _id task ->
     processTask_signalProgress this task' w =
       processTask_signalProgress this task w).
Proof.
  intros Hdb Hf Huniq.
  pose (fresh := fun d : TaskDefinition =>
                   match receivedTime d with
                   | Some r => clock w - processingTimeout this <? r
                   | None => false
                   end).
  pose proof (firstMatch_byId_and (_id task) fresh (collection w) Huniq) as Hfind.
  change (fun x => Mongo.byId (_id task) x && fresh x)
    with (renewQuery this task (clock w)) in Hfind.
  assert (Hrun : processTask_signalProgress this task w =
    match Update.put_receivedTime (Some (clock w)) <$>
          Mongo.firstMatch (renewQuery this task (clock w)) (collection w) with
    | None => throw {| message := "Task expired or no longer exists" |}
    | Some _ => resolve tt
    end (set_collection
           (Mongo.updateFirst (renewQuery this task (clock w))
              (Update.put_receivedTime (Some (clock w))) (collection w)) w)).
  { unfold processTask_signalProgress, await, now, Mongo.findOneAndUpdate, await.
    rewrite (getMongoCollection_configured _ _ _ Hdb), (roundTrip_healthy _ Hf).
    reflexivity. }
  split; [|split].
  - intros d r Hd Hr Hfresh.
    assert (HP : fresh d = true) by (unfold fresh; rewrite Hr; apply Z.ltb_lt; exact Hfresh).
    rewrite Hd, HP in Hfind.
    eexists. rewrite Hrun, Hfind. split; [reflexivity|].
    cbn [collection set_collection].
    change (renewQuery this task (clock w))
      with (fun x => Mongo.byId (_id task) x && fresh x).
    rewrite (updateFirst_byId_and _ fresh _ _ _ Hd HP). split.
    + rewrite firstMatch_updateFirst, Hd; [reflexivity|].
      intros x Hx. exact Hx.
    + apply updateFirst_onlyTouches. reflexivity.
  - intros Hstale.
    assert (Hnone : Mongo.firstMatch (renewQuery this task (clock w)) (collection w) = None).
    { rewrite Hfind.
      destruct (Mongo.firstMatch (Mongo.byId (_id task)) (collection w)) as [d|];
        [|reflexivity].
      unfold fresh. destruct (receivedTime d) as [r|]; [|reflexivity].
      apply Z.ltb_ge in Hstale. rewrite Hstale. reflexivity. }
    rewrite Hrun, Hnone, (updateFirst_no_match _ _ _ Hnone).
    destruct w; reflexivity.
  - intros task' Hid. unfold processTask_signalProgress, renewQuery.
    rewrite Hid. reflexivity.
Qed.

Lemma renewal_by_stored_lease_witness :
  databasePromise Sample.sched = Some tt /\
  faults (Sample.at_ 35000 [Sample.job 2000 (Some 5000) None]) = [] /\
  uniqueIds (collection (Sample.at_ 35000 [Sample.job 2000 (Some 5000) None])) /\
  exists w',
    processTask_signalProgress Sample.sched (Sample.job 2000 None None)
      (Sample.at_ 35000 [Sample.job 2000 (Some 5000) None]) = (Fulfilled tt, w') /\
    Mongo.firstMatch (Mongo.byId "job") (collection w') =
      Some (Sample.job 2000 (Some 35000) None) /\
    onlyTouches "job" [Sample.job 2000 (Some 5000) None] (collection w').
Proof.
  assert (H : uniqueIds (collection (Sample.at_ 35000 [Sample.job 2000 (Some 5000) None]))).
  { unfold uniqueIds. apply (bool_decide_unpack _). vm_compute. exact I. }
  split; [reflexivity|]. split; [reflexivity|]. split; [exact H|].
  exact (proj1 (renewal_by_stored_lease Sample.sched tt (Sample.job 2000 None None)
                  (Sample.at_ 35000 [Sample.job 2000 (Some 5000) None])
                  eq_refl eq_refl H)
               (Sample.job 2000 (Some 5000) None) 5000 eq_refl eq_refl
               ltac:(vm_compute; reflexivity)).
Defined.

(** ** More on the declaration *)

Lemma declared_databasePromise (this : TaskScheduler) (id : string)
    (worker : TaskWorker) :
  databasePromise
    (startPolling (set_taskWorkers (<[id := worker]> (taskWorkers this)) this)) =
  databasePromise this.
Proof.
  destruct (startPolling_running
              (set_taskWorkers (<[id := worker]> (taskWorkers this)) this))
    as (_ & _ & H & _).
  exact H.
Qed.

Lemma declared_taskWorkers (this : TaskScheduler) (id : string)
    (worker : TaskWorker) :
  taskWorkers
    (startPolling (set_taskWorkers (<[id := worker]> (taskWorkers this)) this)) =
  <[id := worker]> (taskWorkers this).
Proof.
  destruct (startPolling_running
              (set_taskWorkers (<[id := worker]> (taskWorkers this)) this))
    as (_ & H & _).
  exact H.
Qed.

(** The first declaration of an id on a reachable store. *)
Lemma scheduleTask_insert (cronParser : string -> Date -> Error + Date)
    (this : TaskScheduler) (db : MongoDb) (id cron : string)
    (worker : TaskWorker) (nextTime : Date) (w : World) :
  databasePromise this = Some db ->
  faults w = [] ->
  Mongo.firstMatch (Mongo.byId id) (collection w) = None ->
  cronParser cron (clock w) = inr nextTime ->
  scheduleTask cronParser this id cron worker w =
    (Fulfilled tt,
     startPolling (set_taskWorkers (<[id := worker]> (taskWorkers this)) this),
     set_collection
       (collection w ++
        [{| _id := id; cronSchedule := cron;
            nextScheduledTime := nextTime; receivedTime := None;
            lastErroredTime := None; lastCompletedTime := None;
            executionLog := None |}]) w).
Proof.
  intros Hdb Hf Hnew Hcron.
  pose proof (declared_databasePromise this id worker) as Hdb'.
  rewrite Hdb in Hdb'.
  unfold scheduleTask, await, now.
  rewrite (findTask_healthy _ _ _ Hdb' Hf), Hnew, Hcron.
  unfold insertTask, await, Mongo.insertOne, await.
  rewrite (getMongoCollection_configured _ _ _ Hdb'), (roundTrip_healthy _ Hf).
  cbn [_id]. rewrite Hnew. reflexivity.
Qed.

Lemma firstMatch_appended (id : string) (c : list TaskDefinition)
    (d : TaskDefinition) :
  Mongo.firstMatch (Mongo.byId id) c = None -> _id d = id ->
  Mongo.firstMatch (Mongo.byId id) (c ++ [d]) = Some d.
Proof.
  unfold Mongo.firstMatch, Mongo.byId.
  induction c as [|x c IH]; simpl; intros Hnone Hid.
  - rewrite bool_decide_eq_true_2 by exact Hid. reflexivity.
  - destruct (bool_decide (_id x = id)); [discriminate | auto].
Qed.

(** X9. Declaring twice is declaring once.  With the store reachable, a
    first [scheduleTask] for an id adds one record, and a second one for
    the same id and schedule string at the same instant is fulfilled and
    leaves the world as the first one left it; the worker of the second
    call is the one registered. *)
Theorem scheduleTask_twice (cronParser : string -> Date -> Error + Date)
    (this : TaskScheduler) (db : MongoDb) (id cron : string)
    (worker worker' : TaskWorker) (nextTime : Date) (w : World) :
  databasePromise this = Some db ->
  faults w = [] ->
  Mongo.firstMatch (Mongo.byId id) (collection w) = None ->
  cronParser cron (clock w) = inr nextTime ->
  exists this1 w1 this2,
    scheduleTask cronParser this id cron worker w = (Fulfilled tt, this1, w1) /\
    length (collection w1) = S (length (collection w)) /\
    scheduleTask cronParser this1 id cron worker' w1 = (Fulfilled tt, this2, w1) /\
    taskWorkers this2 !! id = Some worker'.
Proof.
  intros Hdb Hf Hnew Hcron.
  rewrite (scheduleTask_insert _ _ _ _ _ _ _ _ Hdb Hf Hnew Hcron).
  eexists _, _, _. split; [reflexivity|].
  split; [cbn [collection set_collection]; rewrite length_app; simpl; lia|].
  pose proof (declared_databasePromise this id worker) as Hdb1.
  rewrite Hdb in Hdb1.
  pose proof (firstMatch_appended id (collection w)
                {| _id := id; cronSchedule := cron;
                   nextScheduledTime := nextTime; receivedTime := None;
                   lastErroredTime := None; lastCompletedTime := None;
                   executionLog := None |} Hnew eq_refl) as Hstored.
  match goal with |- context [scheduleTask cronParser ?s id cron worker' ?w1] =>
    rewrite (scheduleTask_existing cronParser s db id cron worker' _ nextTime w1
               Hdb1 Hf Hstored Hcron)
  end.
  cbn [cronSchedule receivedTime nextScheduledTime].
  rewrite String.eqb_refl, Z.ltb_irrefl, andb_false_r. cbn [negb orb].
  split; [reflexivity|].
  rewrite declared_taskWorkers. apply lookup_insert_eq.
Qed.

Lemma scheduleTask_twice_witness :
  databasePromise Sample.sched = Some tt /\
  faults (Sample.at_ 1600 [Sample.other 60000]) = [] /\
  Mongo.firstMatch (Mongo.byId "job")
    (collection (Sample.at_ 1600 [Sample.other 60000])) = None /\
  utcCron Sample.everySecond 1600 = inr 2000 /\
  exists this1 w1 this2,
    scheduleTask utcCron Sample.sched "job" Sample.everySecond Sample.idle
      (Sample.at_ 1600 [Sample.other 60000]) = (Fulfilled tt, this1, w1) /\
    length (collection w1) = 2%nat /\
    scheduleTask utcCron this1 "job" Sample.everySecond Sample.failing w1 =
      (Fulfilled tt, this2, w1) /\
    taskWorkers this2 !! "job" = Some Sample.failing.
Proof.
  repeat (split; [reflexivity|]).
  exact (scheduleTask_twice utcCron Sample.sched tt "job" Sample.everySecond
           Sample.idle Sample.failing 2000 (Sample.at_ 1600 [Sample.other 60000])
           eq_refl eq_refl eq_refl eq_refl).
Defined.

(** X10. A schedule string that does not parse: with the store reachable,
    [scheduleTask] is rejected with the parser's error after the lookup and
    writes nothing, whether or not a record is stored under the id. *)
Theorem scheduleTask_bad_schedule (cronParser : string -> Date -> Error + Date)
    (this : TaskScheduler) (db : MongoDb) (id cron : string)
    (worker : TaskWorker) (e : Error) (w : World) :
  databasePromise this = Some db ->
  faults w = [] ->
  cronParser cron (clock w) = inl e ->
  scheduleTask cronParser this id cron worker w =
    (Rejected e,
     startPolling (set_taskWorkers (<[id := worker]> (taskWorkers this)) this),
     w).
Proof.
  intros Hdb Hf Hcron.
  pose proof (declared_databasePromise this id worker) as Hdb'.
  rewrite Hdb in Hdb'.
  unfold scheduleTask, await, now.
  rewrite (findTask_healthy _ _ _ Hdb' Hf), Hcron. reflexivity.
Qed.

Lemma scheduleTask_bad_schedule_witness :
  databasePromise Sample.sched = Some tt /\
  faults (Sample.at_ 1600 [Sample.job 2000 None None]) = [] /\
  utcCron "every day" 1600 = inl {| message := "Invalid cron expression" |} /\
  scheduleTask utcCron Sample.sched "job" "every day" Sample.idle
    (Sample.at_ 1600 [Sample.job 2000 None None]) =
  (Rejected {| message := "Invalid cron expression" |},
   startPolling
     (set_taskWorkers (<["job" := Sample.idle]> (taskWorkers Sample.sched))
        Sample.sched),
   Sample.at_ 1600 [Sample.job 2000 None None]).
Proof.
  repeat (split; [reflexivity|]).
  exact (scheduleTask_bad_schedule utcCron Sample.sched tt "job" "every day"
           Sample.idle _ (Sample.at_ 1600 [Sample.job 2000 None None])
           eq_refl eq_refl eq_refl).
Defined.

(** X11. A freshly declared task is claimed only after its first fire
    time.  With the store reachable, the record that a first [scheduleTask]
    inserts satisfies the claim filter of the declaring scheduler exactly at
    the instants strictly later than its [nextScheduledTime]. *)
Theorem declared_task_due_after_next
    (cronParser : string -> Date -> Error + Date)
    (this : TaskScheduler) (db : MongoDb) (id cron : string)
    (worker : TaskWorker) (nextTime : Date) (w : World) :
  databasePromise this = Some db ->
  faults w = [] ->
  Mongo.firstMatch (Mongo.byId id) (collection w) = None ->
  cronParser cron (clock w) = inr nextTime ->
  exists this1 w1 d,
    scheduleTask cronParser this id cron worker w = (Fulfilled tt, this1, w1) /\
    Mongo.firstMatch (Mongo.byId id) (collection w1) = Some d /\
    forall t', receiveQuery this1 t' d = true <-> nextTime < t'.
Proof.
  intros Hdb Hf Hnew Hcron.
  rewrite (scheduleTask_insert _ _ _ _ _ _ _ _ Hdb Hf Hnew Hcron).
  eexists _, _, _. split; [reflexivity|].
  split; [apply firstMatch_appended; [exact Hnew | reflexivity]|].
  intros t'. rewrite receiveQuery_spec. cbn [_id nextScheduledTime receivedTime].
  rewrite declared_taskWorkers. split.
  - intros (_ & Hdue & _). exact Hdue.
  - intros Hdue. split; [|auto].
    unfold TaskWorker. rewrite lookup_insert_eq. eauto.
Qed.

Lemma declared_task_due_after_next_witness :
  databasePromise Sample.sched = Some tt /\
  faults (Sample.at_ 1600 [Sample.other 60000]) = [] /\
  Mongo.firstMatch (Mongo.byId "job")
    (collection (Sample.at_ 1600 [Sample.other 60000])) = None /\
  utcCron Sample.everySecond 1600 = inr 2000 /\
  exists this1 w1 d,
    scheduleTask utcCron Sample.sched "job" Sample.everySecond Sample.idle
      (Sample.at_ 1600 [Sample.other 60000]) = (Fulfilled tt, this1, w1) /\
    Mongo.firstMatch (Mongo.byId "job") (collection w1) = Some d /\
    forall t', receiveQuery this1 t' d = true <-> 2000 < t'.
Proof.
  repeat (split; [reflexivity|]).
  exact (declared_task_due_after_next utcCron Sample.sched tt "job"
           Sample.everySecond Sample.idle 2000
           (Sample.at_ 1600 [Sample.other 60000])
           eq_refl eq_refl eq_refl eq_refl).
Defined.

(** X12. What a rewriting [scheduleTask] does to the execution log.  With
    the store reachable, when [scheduleTask] rewrites a stored record (the
    schedule string differs, or no lease is held and the stored time is
    later than the fresh one), [updateTask] leaves a log of fewer than ten
    entries as it is and removes the oldest entry of a log of ten or more,
    although nothing has been appended. *)
Theorem scheduleTask_rewrite_log (cronParser : string -> Date -> Error + Date)
    (this : TaskScheduler) (db : MongoDb) (id cron : string)
    (worker : TaskWorker) (task : TaskDefinition) (nextTime : Date) (w : World) :
  databasePromise this = Some db ->
  faults w = [] ->
  Mongo.firstMatch (Mongo.byId id) (collection w) = Some task ->
  cronParser cron (clock w) = inr nextTime ->
  cronSchedule task <> cron \/
  (receivedTime task = None /\ nextTime < nextScheduledTime task) ->
  exists this' w' task',
    scheduleTask cronParser this id cron worker w = (Fulfilled tt, this', w') /\
    Mongo.firstMatch (Mongo.byId id) (collection w') = Some task' /\
    executionLog task' =
      if (10 <=? length (default [] (executionLog task)))%nat
      then tail <$> executionLog task
      else executionLog task.
Proof.
  intros Hdb Hf Htask Hcron Hwhy.
  rewrite (scheduleTask_existing _ _ _ _ _ _ _ _ _ Hdb Hf Htask Hcron).
  assert (Hcond : negb (cronSchedule task =? cron)%string
                  || negb (bool_decide (is_Some (receivedTime task)))
                     && (nextTime <? nextScheduledTime task) = true).
  { destruct Hwhy as [Hne|[Hfree Hlater]].
    - apply String.eqb_neq in Hne. rewrite Hne. reflexivity.
    - apply orb_true_iff. right. rewrite Hfree. apply andb_true_iff. split.
      + rewrite bool_decide_eq_false_2; [reflexivity|].
        intros [x Hx]. discriminate Hx.
      + apply Z.ltb_lt. exact Hlater. }
  rewrite Hcond.
  pose proof (declared_databasePromise this id worker) as Hdb'.
  rewrite Hdb in Hdb'.
  pose proof (firstMatch_byId _ _ _ Htask) as Hid.
  rewrite <- Hid in Htask.
  run_updateTask Hdb' Hf Htask.
  rewrite Hid in *.
  eexists _, w', _. split; [reflexivity|]. split; [exact Hst|].
  destruct (10 <=? length (default [] (executionLog task)))%nat; reflexivity.
Qed.

Lemma scheduleTask_rewrite_log_witness :
  databasePromise Sample.sched = Some tt /\
  faults (Sample.at_ 1600
            [Sample.job 2000 None (Some (Sample.done 500 :: Sample.nineRuns))]) = [] /\
  Mongo.firstMatch (Mongo.byId "job")
    (collection
       (Sample.at_ 1600
          [Sample.job 2000 None (Some (Sample.done 500 :: Sample.nineRuns))])) =
    Some (Sample.job 2000 None (Some (Sample.done 500 :: Sample.nineRuns))) /\
  utcCron Sample.everyMinute 1600 = inr 60000 /\
  exists this' w' task',
    scheduleTask utcCron Sample.sched "job" Sample.everyMinute Sample.idle
      (Sample.at_ 1600
         [Sample.job 2000 None (Some (Sample.done 500 :: Sample.nineRuns))]) =
      (Fulfilled tt, this', w') /\
    Mongo.firstMatch (Mongo.byId "job") (collection w') = Some task' /\
    executionLog task' = Some Sample.nineRuns.
Proof.
  split; [reflexivity|]. split; [reflexivity|]. split; [reflexivity|].
  split; [reflexivity|].
  assert (Hwhy :
    cronSchedule (Sample.job 2000 None (Some (Sample.done 500 :: Sample.nineRuns)))
      <> Sample.everyMinute \/
    (receivedTime (Sample.job 2000 None (Some (Sample.done 500 :: Sample.nineRuns)))
       = None /\
     60000 < nextScheduledTime
               (Sample.job 2000 None (Some (Sample.done 500 :: Sample.nineRuns)))))
    by (left; discriminate).
  destruct (scheduleTask_rewrite_log utcCron Sample.sched tt "job"
              Sample.everyMinute Sample.idle
              (Sample.job 2000 None (Some (Sample.done 500 :: Sample.nineRuns)))
              60000
              (Sample.at_ 1600
                 [Sample.job 2000 None (Some (Sample.done 500 :: Sample.nineRuns))])
              eq_refl eq_refl eq_refl eq_refl Hwhy)
    as (this' & w' & task' & Hrun & Hstored & Hlog).
  exists this', w', task'. split; [exact Hrun|]. split; [exact Hstored|].
  rewrite Hlog. vm_compute. reflexivity.
Defined.

(** X13. [scheduleTask] touches the scheduler at two places only, in every
    world and whatever the outcome: the worker under [id] is replaced, the
    workers under every other id stay; a timer handle that exists is kept
    (starting an already running loop does nothing), and the options stay. *)
Theorem scheduleTask_scheduler_frame
    (cronParser : string -> Date -> Error + Date)
    (this : TaskScheduler) (id cron : string) (worker : TaskWorker) (w : World) :
  let this' := (scheduleTask cronParser this id cron worker w).1.2 in
  (forall id', id' <> id -> taskWorkers this' !! id' = taskWorkers this !! id') /\
  (forall h, pollingIntervalId this = Some h -> pollingIntervalId this' = Some h) /\
  pollingInterval this' = pollingInterval this /\
  processingTimeout this' = processingTimeout this /\
  databasePromise this' = databasePromise this.
Proof.
  cbn zeta. rewrite scheduleTask_scheduler. unfold startPolling.
  cbn [pollingIntervalId set_taskWorkers].
  destruct (pollingIntervalId this) as [h|] eqn:Hh;
    cbn [taskWorkers pollingIntervalId pollingInterval processingTimeout
         databasePromise set_taskWorkers set_pollingIntervalId];
    (split; [intros id' Hne; apply lookup_insert_ne; congruence|]);
    (split; [intros h' Hh'; congruence|]); auto.
Qed.

Lemma scheduleTask_scheduler_frame_witness :
  "other" <> "job" /\
  pollingIntervalId Sample.sched = Some 1%positive /\
  taskWorkers
    (scheduleTask utcCron Sample.sched "job" Sample.everySecond Sample.failing
       (Sample.at_ 1600 [])).1.2 !! "other" = taskWorkers Sample.sched !! "other" /\
  pollingIntervalId
    (scheduleTask utcCron Sample.sched "job" Sample.everySecond Sample.failing
       (Sample.at_ 1600 [])).1.2 = Some 1%positive.
Proof.
  split; [discriminate|]. split; [reflexivity|].
  pose proof (scheduleTask_scheduler_frame utcCron Sample.sched "job"
                Sample.everySecond Sample.failing (Sample.at_ 1600 []))
    as (Hreg & Htimer & _).
  split; [apply Hreg; discriminate | apply Htimer; reflexivity].
Defined.

(** ** More on the polling cycle *)

(** X14. A claim that fails does not fail the cycle.  Without a database,
    and when the store rejects the round trip of the claim, [receiveTask]
    is fulfilled with nothing, has called [errorHandler] once with the
    error, and has written nothing; [poll] is fulfilled in the same world
    without calling a worker. *)
Theorem claim_failure_is_reported (cronParser : string -> Date -> Error + Date)
    (this : TaskScheduler) (w : World) :
  (databasePromise this = None ->
   let w' := set_reported
               (reported w ++ [{| message := "No database configured" |}]) w in
   receiveTask this w = (Fulfilled None, w') /\
   poll cronParser this w = (Fulfilled tt, w')) /\
  (forall db e rest,
     databasePromise this = Some db -> faults w = Some e :: rest ->
     let w' := set_reported (reported w ++ [e]) (set_faults rest w) in
     receiveTask this w = (Fulfilled None, w') /\
     poll cronParser this w = (Fulfilled tt, w')).
Proof.
  split.
  - intros Hnone. cbn zeta.
    assert (H : receiveTask this w =
      (Fulfilled None,
       set_reported (reported w ++ [{| message := "No database configured" |}]) w)).
    { unfold receiveTask, tryCatch, await, now.
      rewrite (getMongoCollection_missing _ _ Hnone). reflexivity. }
    split; [exact H|]. unfold poll, await. rewrite H. reflexivity.
  - intros db e rest Hdb Hf. cbn zeta.
    assert (H : receiveTask this w =
      (Fulfilled None, set_reported (reported w ++ [e]) (set_faults rest w))).
    { unfold receiveTask, tryCatch, await, now, Mongo.findOneAndUpdate, await,
        Mongo.roundTrip.
      rewrite (getMongoCollection_configured _ _ _ Hdb), Hf. reflexivity. }
    split; [exact H|]. unfold poll, await. rewrite H. reflexivity.
Qed.

Lemma claim_failure_is_reported_witness :
  databasePromise newTaskScheduler = None /\
  poll utcCron newTaskScheduler (Sample.at_ 5000 [Sample.job 2000 None None]) =
  (Fulfilled tt,
   {| clock := 5000; collection := [Sample.job 2000 None None]; faults := [];
      reported := [{| message := "No database configured" |}] |}).
Proof.
  split; [reflexivity|].
  exact (proj2 (proj1 (claim_failure_is_reported utcCron newTaskScheduler
                         (Sample.at_ 5000 [Sample.job 2000 None None])) eq_refl)).
Defined.

(** X15. A cycle that finds nothing has no effect.  With the store
    reachable, when no record satisfies the claim filter, [poll] is
    fulfilled and the world is exactly as before: nothing written, nothing
    reported, no worker called. *)
Theorem poll_nothing_due (cronParser : string -> Date -> Error + Date)
    (this : TaskScheduler) (db : MongoDb) (w : World) :
  databasePromise this = Some db ->
  faults w = [] ->
  Forall (fun d => receiveQuery this (clock w) d = false) (collection w) ->
  poll cronParser this w = (Fulfilled tt, w).
Proof.
  intros Hdb Hf Hnone. apply firstMatch_none in Hnone.
  unfold poll, await.
  rewrite (receiveTask_healthy _ _ _ Hdb Hf), Hnone,
    (updateFirst_no_match _ _ _ Hnone).
  destruct w; reflexivity.
Qed.

Lemma poll_nothing_due_witness :
  databasePromise Sample.sched = Some tt /\
  faults (Sample.at_ 5000 [Sample.job 2000 (Some 4000) None;
                           Sample.other 9000]) = [] /\
  poll utcCron Sample.sched
    (Sample.at_ 5000 [Sample.job 2000 (Some 4000) None; Sample.other 9000]) =
  (Fulfilled tt,
   Sample.at_ 5000 [Sample.job 2000 (Some 4000) None; Sample.other 9000]).
Proof.
  split; [reflexivity|]. split; [reflexivity|].
  apply (poll_nothing_due utcCron Sample.sched tt
           (Sample.at_ 5000 [Sample.job 2000 (Some 4000) None; Sample.other 9000])
           eq_refl eq_refl).
  repeat constructor.
Defined.

(** X16. Settling a record that is gone.  With the store reachable, when
    no record is stored under the task's id any more, [completeTask] and
    [releaseTask] are fulfilled and leave the world as it was: the record is
    not created again. *)
Theorem settlement_of_missing_record
    (cronParser : string -> Date -> Error + Date)
    (this : TaskScheduler) (db : MongoDb) (task : TaskDefinition)
    (nextTime : Date) (w : World) :
  databasePromise this = Some db ->
  faults w = [] ->
  Mongo.firstMatch (Mongo.byId (_id task)) (collection w) = None ->
  cronParser (cronSchedule task) (clock w + 1000) = inr nextTime ->
  (forall output,
     completeTask cronParser this task output w = (inr (Fulfilled tt), w)) /\
  (forall error,
     releaseTask cronParser this task error w = (inr (Fulfilled tt), w)).
Proof.
  intros Hdb Hf Hgone Hcron.
  assert (Hupd : forall u, updateTask this task u w = (Fulfilled tt, w)).
  { intros u. rewrite (updateTask_healthy _ _ _ Hdb Hf). cbn zeta.
    rewrite (updateFirst_no_match _ u _ Hgone).
    rewrite (updateFirst_no_match _ Update.pop_executionLog _ Hgone).
    destruct (10 <=? length (default [] (executionLog task)))%nat;
      destruct w; reflexivity. }
  split.
  - intros output. unfold completeTask. rewrite Hcron, Hupd. reflexivity.
  - intros error. unfold releaseTask. rewrite Hcron, Hupd. reflexivity.
Qed.

Lemma settlement_of_missing_record_witness :
  databasePromise Sample.sched = Some tt /\
  faults (Sample.at_ 5900 [Sample.other 60000]) = [] /\
  Mongo.firstMatch (Mongo.byId "job")
    (collection (Sample.at_ 5900 [Sample.other 60000])) = None /\
  utcCron Sample.everySecond (5900 + 1000) = inr 7000 /\
  completeTask utcCron Sample.sched (Sample.job 2000 (Some 5000) None)
    (Some "ok") (Sample.at_ 5900 [Sample.other 60000]) =
  (inr (Fulfilled tt), Sample.at_ 5900 [Sample.other 60000]).
Proof.
  repeat (split; [reflexivity|]).
  exact (proj1 (settlement_of_missing_record utcCron Sample.sched tt
                  (Sample.job 2000 (Some 5000) None) 7000
                  (Sample.at_ 5900 [Sample.other 60000])
                  eq_refl eq_refl eq_refl eq_refl) (Some "ok")).
Defined.

(** X17. A stored schedule that does not parse cannot be settled.  In
    every world, when the cron parser throws for the claimed record's
    schedule, the cycle makes no store access after the worker: on the
    completion path the parser's error is reported once, on the release
    path the worker's error is, [poll_settle] is rejected with the parser's
    error, and the collection, with the lease of the claim, is as it was. *)
Theorem unparsable_schedule_is_not_settled
    (cronParser : string -> Date -> Error + Date)
    (this : TaskScheduler) (task : TaskDefinition) (e : Error) (w : World) :
  cronParser (cronSchedule task) (clock w + 1000) = inl e ->
  (forall output,
     poll_settle cronParser this task (Fulfilled output) w =
       (Rejected e, set_reported (reported w ++ [e]) w)) /\
  (forall error,
     poll_settle cronParser this task (Rejected error) w =
       (Rejected e, set_reported (reported w ++ [error]) w)).
Proof.
  intros Hcron. split.
  - intros output. unfold poll_settle, completeTask, errorHandler, releaseTask.
    rewrite Hcron. cbn [clock set_reported]. rewrite Hcron. reflexivity.
  - intros error. unfold poll_settle, errorHandler, releaseTask.
    cbn [clock set_reported]. rewrite Hcron. reflexivity.
Qed.

Lemma unparsable_schedule_is_not_settled_witness :
  utcCron "every day" (5900 + 1000) = inl {| message := "Invalid cron expression" |} /\
  poll_settle utcCron Sample.sched
    {| _id := "job"; cronSchedule := "every day"; nextScheduledTime := 2000;
       receivedTime := Some 5000; lastErroredTime := None;
       lastCompletedTime := None; executionLog := None |}
    (Fulfilled None)
    (Sample.at_ 5900
       [{| _id := "job"; cronSchedule := "every day"; nextScheduledTime := 2000;
           receivedTime := Some 5000; lastErroredTime := None;
           lastCompletedTime := None; executionLog := None |}]) =
  (Rejected {| message := "Invalid cron expression" |},
   {| clock := 5900;
      collection :=
        [{| _id := "job"; cronSchedule := "every day"; nextScheduledTime := 2000;
            receivedTime := Some 5000; lastErroredTime := None;
            lastCompletedTime := None; executionLog := None |}];
      faults := [];
      reported := [{| message := "Invalid cron expression" |}] |}).
Proof.
  split; [reflexivity|].
  exact (proj1 (unparsable_schedule_is_not_settled utcCron Sample.sched
                  {| _id := "job"; cronSchedule := "every day";
                     nextScheduledTime := 2000; receivedTime := Some 5000;
                     lastErroredTime := None; lastCompletedTime := None;
                     executionLog := None |}
                  {| message := "Invalid cron expression" |}
                  (Sample.at_ 5900
                     [{| _id := "job"; cronSchedule := "every day";
                         nextScheduledTime := 2000; receivedTime := Some 5000;
                         lastErroredTime := None; lastCompletedTime := None;
                         executionLog := None |}])
                  eq_refl) None).
Defined.

Lemma utcCron_after (expr : string) (ref t : Date) :
  utcCron expr ref = inr t -> ref < t.
Proof. intros H. apply utcCron_first_fire in H. exact (proj1 H). Qed.

(** A settled record: no lease, due at [nextTime]. *)
Lemma settled_record_claimable (other : TaskScheduler) (d' : TaskDefinition)
    (t' : Date) :
  receivedTime d' = None ->
  (receiveQuery other t' d' = true <->
   is_Some (taskWorkers other !! _id d') /\ nextScheduledTime d' < t').
Proof.
  intros Hfree. rewrite receiveQuery_spec, Hfree. split.
  - intros (Hw & Hdue & _). auto.
  - intros (Hw & Hdue). auto.
Qed.

(** What the stored record is after a settlement on a reachable store. *)
Lemma settled_record_waits (w : World) (task d' : TaskDefinition)
    (nextTime : Date) :
  clock w + 1000 < nextTime ->
  receivedTime d' = None -> nextScheduledTime d' = nextTime ->
  _id d' = _id task ->
  receivedTime d' = None /\ nextScheduledTime d' = nextTime /\
  clock w + 1000 < nextTime /\
  forall other t',
    receiveQuery other t' d' = true <->
    is_Some (taskWorkers other !! _id task) /\ nextTime < t'.
Proof.
  intros Hlater Hfree Hnext Hid'.
  split; [exact Hfree|]. split; [exact Hnext|]. split; [exact Hlater|].
  intros other t'.
  rewrite (settled_record_claimable other d' t' Hfree), Hid', Hnext.
  reflexivity.
Qed.

(** X18. After a completed run the task waits for its next fire time.
    With the store reachable and a cron adapter that answers strictly after
    its reference instant, when the worker has returned, [poll_settle] is
    fulfilled and [errorHandler] has not been called; the stored record
    holds no lease, [lastCompletedTime] at the instant of the settlement and
    a [nextScheduledTime] more than a second after it, and satisfies the
    claim filter of a scheduler exactly when that scheduler has a worker for
    its id and the instant is strictly later than that time. *)
Theorem settled_task_waits_for_next_fire
    (cronParser : string -> Date -> Error + Date)
    (this : TaskScheduler) (db : MongoDb) (task d : TaskDefinition)
    (nextTime : Date) (w : World) :
  (forall expr ref t, cronParser expr ref = inr t -> ref < t) ->
  databasePromise this = Some db ->
  faults w = [] ->
  Mongo.firstMatch (Mongo.byId (_id task)) (collection w) = Some d ->
  cronParser (cronSchedule task) (clock w + 1000) = inr nextTime ->
  forall output, exists w' d',
    poll_settle cronParser this task (Fulfilled output) w = (Fulfilled tt, w') /\
    reported w' = reported w /\
    Mongo.firstMatch (Mongo.byId (_id task)) (collection w') = Some d' /\
    lastCompletedTime d' = Some (clock w) /\
    receivedTime d' = None /\
    nextScheduledTime d' = nextTime /\
    clock w + 1000 < nextTime /\
    forall other t',
      receiveQuery other t' d' = true <->
      is_Some (taskWorkers other !! _id task) /\ nextTime < t'.
Proof.
  intros Hafter Hdb Hf Hd Hcron output.
  pose proof (Hafter _ _ _ Hcron) as Hlater.
  pose proof (firstMatch_byId _ _ _ Hd) as Hid.
  unfold poll_settle, completeTask. rewrite Hcron.
  match goal with |- context [updateTask this task ?u w] =>
    pose proof (updateTask_onlyTouches this task u w ltac:(reflexivity))
      as (_ & _ & Hrep) end.
  run_updateTask Hdb Hf Hd. rewrite Hrun in Hrep. cbn [snd] in Hrep.
  eexists w', _. split; [reflexivity|].
  split; [exact Hrep|].
  split; [exact Hst|].
  split; [destruct (10 <=? length (default [] (executionLog task)))%nat;
          reflexivity|].
  apply (settled_record_waits w task); [exact Hlater | | |];
    destruct (10 <=? length (default [] (executionLog task)))%nat;
    first [reflexivity | exact Hid].
Qed.

Lemma settled_task_waits_for_next_fire_witness :
  databasePromise Sample.sched = Some tt /\
  faults (Sample.at_ 5900 [Sample.job 2000 (Some 5000) None]) = [] /\
  Mongo.firstMatch (Mongo.byId "job")
    (collection (Sample.at_ 5900 [Sample.job 2000 (Some 5000) None])) =
    Some (Sample.job 2000 (Some 5000) None) /\
  utcCron Sample.everySecond (5900 + 1000) = inr 7000 /\
  exists w' d',
    poll_settle utcCron Sample.sched (Sample.job 2000 (Some 5000) None)
      (Fulfilled (Some "ok"))
      (Sample.at_ 5900 [Sample.job 2000 (Some 5000) None]) = (Fulfilled tt, w') /\
    reported w' = [] /\
    Mongo.firstMatch (Mongo.byId "job") (collection w') = Some d' /\
    lastCompletedTime d' = Some 5900 /\
    receivedTime d' = None /\
    nextScheduledTime d' = 7000 /\
    5900 + 1000 < 7000 /\
    forall other t',
      receiveQuery other t' d' = true <->
      is_Some (taskWorkers other !! "job") /\ 7000 < t'.
Proof.
  repeat (split; [reflexivity|]).
  exact (settled_task_waits_for_next_fire utcCron Sample.sched tt
           (Sample.job 2000 (Some 5000) None) (Sample.job 2000 (Some 5000) None)
           7000 (Sample.at_ 5900 [Sample.job 2000 (Some 5000) None])
           utcCron_after eq_refl eq_refl eq_refl eq_refl (Some "ok")).
Defined.

(** X21. A worker that fails with an [Error] object is reported once and
    released.  [Rejected error] stands for a worker that throws, or rejects
    with, an [Error] whose message is [message error]; a failure with a
    value that is not an [Error] is outside this statement.  With the store
    reachable and a cron adapter that answers strictly after its reference
    instant, [poll_settle] is then fulfilled, [errorHandler] has been
    called exactly once, with that error, and the stored record holds no
    lease, [lastErroredTime] at the instant of the release and a
    [nextScheduledTime] more than a second after the release, before which
    no scheduler claims it. *)
Theorem failed_task_is_reported_once
    (cronParser : string -> Date -> Error + Date)
    (this : TaskScheduler) (db : MongoDb) (task d : TaskDefinition)
    (nextTime : Date) (w : World) :
  (forall expr ref t, cronParser expr ref = inr t -> ref < t) ->
  databasePromise this = Some db ->
  faults w = [] ->
  Mongo.firstMatch (Mongo.byId (_id task)) (collection w) = Some d ->
  cronParser (cronSchedule task) (clock w + 1000) = inr nextTime ->
  forall error : Error, exists w' d',
    poll_settle cronParser this task (Rejected error) w = (Fulfilled tt, w') /\
    reported w' = reported w ++ [error] /\
    Mongo.firstMatch (Mongo.byId (_id task)) (collection w') = Some d' /\
    lastErroredTime d' = Some (clock w) /\
    receivedTime d' = None /\
    nextScheduledTime d' = nextTime /\
    clock w + 1000 < nextTime /\
    forall other t',
      receiveQuery other t' d' = true <->
      is_Some (taskWorkers other !! _id task) /\ nextTime < t'.
Proof.
  intros Hafter Hdb Hf Hd Hcron error.
  pose proof (Hafter _ _ _ Hcron) as Hlater.
  pose proof (firstMatch_byId _ _ _ Hd) as Hid.
  unfold poll_settle, errorHandler, releaseTask.
  cbn [clock set_reported]. rewrite Hcron.
  match goal with |- context [updateTask this task ?u ?w1] =>
    pose proof (updateTask_onlyTouches this task u w1 ltac:(reflexivity))
      as (_ & _ & Hrep) end.
  run_updateTask Hdb Hf Hd. rewrite Hrun in Hrep. cbn [snd reported] in Hrep.
  eexists w', _. split; [reflexivity|].
  split; [exact Hrep|].
  split; [exact Hst|].
  split; [destruct (10 <=? length (default [] (executionLog task)))%nat;
          reflexivity|].
  apply (settled_record_waits w task); [exact Hlater | | |];
    destruct (10 <=? length (default [] (executionLog task)))%nat;
    first [reflexivity | exact Hid].
Qed.

Lemma failed_task_is_reported_once_witness :
  databasePromise Sample.sched = Some tt /\
  faults (Sample.at_ 5900 [Sample.job 2000 (Some 5000) None]) = [] /\
  Mongo.firstMatch (Mongo.byId "job")
    (collection (Sample.at_ 5900 [Sample.job 2000 (Some 5000) None])) =
    Some (Sample.job 2000 (Some 5000) None) /\
  utcCron Sample.everySecond (5900 + 1000) = inr 7000 /\
  exists w' d',
    poll_settle utcCron Sample.sched (Sample.job 2000 (Some 5000) None)
      (Rejected {| message := "boom" |})
      (Sample.at_ 5900 [Sample.job 2000 (Some 5000) None]) = (Fulfilled tt, w') /\
    reported w' = [{| message := "boom" |}] /\
    Mongo.firstMatch (Mongo.byId "job") (collection w') = Some d' /\
    lastErroredTime d' = Some 5900 /\
    receivedTime d' = None /\
    nextScheduledTime d' = 7000 /\
    5900 + 1000 < 7000 /\
    forall other t',
      receiveQuery other t' d' = true <->
      is_Some (taskWorkers other !! "job") /\ 7000 < t'.
Proof.
  repeat (split; [reflexivity|]).
  exact (failed_task_is_reported_once utcCron Sample.sched tt
           (Sample.job 2000 (Some 5000) None) (Sample.job 2000 (Some 5000) None)
           7000 (Sample.at_ 5900 [Sample.job 2000 (Some 5000) None])
           utcCron_after eq_refl eq_refl eq_refl eq_refl
           {| message := "boom" |}).
Defined.

(** ** A stopped scheduler *)

Lemma step_scheduler (cronParser : string -> Date -> Error + Date)
    (p : Process) (e : Event) :
  scheduler (step cronParser p e) = scheduler p.
Proof.
  destruct e as [|i r|dt]; simpl; [| |reflexivity].
  - unfold timerFires.
    destruct (pollingIntervalId (scheduler p)); [|reflexivity].
    destruct (receiveTask (scheduler p) (world p)) as [[[task|]|e] w]; try reflexivity.
    destruct (taskWorkers (scheduler p) !! _id task); [reflexivity|].
    destruct (processTask (scheduler p) task w) as [r w1].
    destruct (poll_settle cronParser (scheduler p) task r w1). reflexivity.
  - unfold workerSettles.
    destruct (inFlight p !! i); [|reflexivity].
    destruct (poll_settle cronParser (scheduler p) t r (world p)). reflexivity.
Qed.

Lemma step_stopped (cronParser : string -> Date -> Error + Date)
    (p : Process) (e : Event) :
  pollingIntervalId (scheduler p) = None ->
  (length (inFlight (step cronParser p e)) <= length (inFlight p))%nat /\
  (inFlight p = [] ->
   inFlight (step cronParser p e) = [] /\
   collection (world (step cronParser p e)) = collection (world p) /\
   reported (world (step cronParser p e)) = reported (world p)).
Proof.
  intros Hstop. destruct e as [|i r|dt]; simpl.
  - unfold timerFires. rewrite Hstop. auto.
  - unfold workerSettles. destruct (inFlight p !! i) as [task|] eqn:Hi.
    + destruct (poll_settle cronParser (scheduler p) task r (world p)).
      simpl. split.
      * rewrite length_delete; [lia | eauto].
      * intros Hnil. rewrite Hnil in Hi. discriminate Hi.
    + auto.
  - auto.
Qed.

(** X19. [stopPolling] stops the claims and nothing else.  For every
    scheduler, world and list of suspended cycles, in every run of the
    process after [stopPolling] the scheduler, with its registry, stays as
    [stopPolling] left it and the timer starts no cycle: the tasks in
    flight never grow in number, and when none is in flight the collection
    is never written and nothing is reported.  [stopPolling] itself keeps
    the registry and the options. *)
Theorem stopped_process_claims_nothing
    (cronParser : string -> Date -> Error + Date)
    (this : TaskScheduler) (w : World) (suspended : list TaskDefinition)
    (evs : list Event) :
  let p := {| scheduler := stopPolling this; world := w;
              inFlight := suspended |} in
  taskWorkers (stopPolling this) = taskWorkers this /\
  processingTimeout (stopPolling this) = processingTimeout this /\
  databasePromise (stopPolling this) = databasePromise this /\
  scheduler (run cronParser evs p) = stopPolling this /\
  (length (inFlight (run cronParser evs p)) <= length suspended)%nat /\
  (suspended = [] ->
   inFlight (run cronParser evs p) = [] /\
   collection (world (run cronParser evs p)) = collection w /\
   reported (world (run cronParser evs p)) = reported w).
Proof.
  cbn zeta.
  assert (Hstop : pollingIntervalId (stopPolling this) = None).
  { unfold stopPolling. destruct (pollingIntervalId this) eqn:H; [reflexivity | exact H]. }
  split; [unfold stopPolling; destruct (pollingIntervalId this); reflexivity|].
  split; [unfold stopPolling; destruct (pollingIntervalId this); reflexivity|].
  split; [unfold stopPolling; destruct (pollingIntervalId this); reflexivity|].
  generalize (stopPolling this) Hstop. clear Hstop. intros s Hstop.
  assert (Hgen : forall evs p,
    pollingIntervalId (scheduler p) = None ->
    scheduler (run cronParser evs p) = scheduler p /\
    (length (inFlight (run cronParser evs p)) <= length (inFlight p))%nat /\
    (inFlight p = [] ->
     inFlight (run cronParser evs p) = [] /\
     collection (world (run cronParser evs p)) = collection (world p) /\
     reported (world (run cronParser evs p)) = reported (world p))).
  { clear Hstop. intros evs0. induction evs0 as [|e evs0 IH]; intros p Hstop.
    - simpl. auto.
    - unfold run in *. cbn [fold_left].
      pose proof (step_scheduler cronParser p e) as Hs.
      destruct (step_stopped cronParser p e Hstop) as [Hlen Hidle].
      destruct (IH (step cronParser p e) ltac:(rewrite Hs; exact Hstop))
        as (Hs' & Hlen' & Hidle').
      split; [congruence|]. split; [lia|].
      intros Hnil. destruct (Hidle Hnil) as (Hnil1 & Hc1 & Hr1).
      destruct (Hidle' Hnil1) as (Hnil2 & Hc2 & Hr2).
      split; [exact Hnil2|]. split; congruence. }
  exact (Hgen evs {| scheduler := s; world := w; inFlight := suspended |} Hstop).
Qed.

Lemma stopped_process_claims_nothing_witness :
  collection
    (world
       (run utcCron [TimerFires; TimePasses 1000; TimerFires]
          {| scheduler := stopPolling Sample.sched;
             world := Sample.at_ 5000 [Sample.job 2000 None None];
             inFlight := [] |})) =
  [Sample.job 2000 None None].
Proof.
  destruct (stopped_process_claims_nothing utcCron Sample.sched
              (Sample.at_ 5000 [Sample.job 2000 None None]) []
              [TimerFires; TimePasses 1000; TimerFires])
    as (_ & _ & _ & _ & _ & Hidle).
  exact (proj1 (proj2 (Hidle eq_refl))).
Defined.

(** ** The two writes of [updateTask] *)

(** X20. The append and the eviction are two writes.  When the claimed
    copy holds ten entries or more, the first write of [completeTask]
    succeeds and the store rejects the second, [completeTask] returns a
    promise rejected with the store's error, and the stored record keeps the
    settlement with the appended entry and without the eviction: its log is
    one entry longer than before. *)
Theorem eviction_is_a_second_write (cronParser : string -> Date -> Error + Date)
    (this : TaskScheduler) (db : MongoDb) (task d : TaskDefinition)
    (nextTime : Date) (output : option string) (e : Error)
    (rest : list (option Error)) (w : World) :
  databasePromise this = Some db ->
  faults w = None :: Some e :: rest ->
  Mongo.firstMatch (Mongo.byId (_id task)) (collection w) = Some d ->
  cronParser (cronSchedule task) (clock w + 1000) = inr nextTime ->
  (10 <= length (default [] (executionLog task)))%nat ->
  exists w' d',
    completeTask cronParser this task output w = (inr (Rejected e), w') /\
    faults w' = rest /\
    Mongo.firstMatch (Mongo.byId (_id task)) (collection w') = Some d' /\
    receivedTime d' = None /\
    nextScheduledTime d' = nextTime /\
    executionLog d' =
      Some (default [] (executionLog d) ++
            [CompletedEntry (default (clock w) (receivedTime task))
               (clock w - default (clock w) (receivedTime task))
               (clock w) output]).
Proof.
  intros Hdb Hf Hd Hcron Hfull.
  apply Nat.leb_le in Hfull.
  unfold completeTask. rewrite Hcron.
  unfold updateTask, await, Mongo.updateOne, await, Mongo.roundTrip.
  rewrite (getMongoCollection_configured _ _ _ Hdb), Hf, Hfull.
  cbn [faults set_faults set_collection].
  eexists _, _. split; [reflexivity|]. split; [reflexivity|].
  cbn [collection set_collection set_faults].
  rewrite firstMatch_updateFirst, Hd.
  - split; [reflexivity|]. repeat split.
  - intros x Hx. exact Hx.
Qed.

Lemma eviction_is_a_second_write_witness :
  databasePromise Sample.sched = Some tt /\
  Mongo.firstMatch (Mongo.byId "job")
    [Sample.job 2000 (Some 5000) (Some (Sample.done 500 :: Sample.nineRuns))] =
    Some (Sample.job 2000 (Some 5000) (Some (Sample.done 500 :: Sample.nineRuns))) /\
  utcCron Sample.everySecond (5900 + 1000) = inr 7000 /\
  exists w' d',
    completeTask utcCron Sample.sched
      (Sample.job 2000 (Some 5000) (Some (Sample.done 500 :: Sample.nineRuns)))
      None
      {| clock := 5900;
         collection :=
           [Sample.job 2000 (Some 5000)
              (Some (Sample.done 500 :: Sample.nineRuns))];
         faults := [None; Some Sample.outage]; reported := [] |} =
      (inr (Rejected Sample.outage), w') /\
    Mongo.firstMatch (Mongo.byId "job") (collection w') = Some d' /\
    length (default [] (executionLog d')) = 11%nat.
Proof.
  split; [reflexivity|]. split; [reflexivity|]. split; [reflexivity|].
  assert (Hfull : Nat.le 10 (length (default [] (executionLog
            (Sample.job 2000 (Some 5000)
               (Some (Sample.done 500 :: Sample.nineRuns)))))))
    by (vm_compute; lia).
  destruct (eviction_is_a_second_write utcCron Sample.sched tt
              (Sample.job 2000 (Some 5000) (Some (Sample.done 500 :: Sample.nineRuns)))
              (Sample.job 2000 (Some 5000) (Some (Sample.done 500 :: Sample.nineRuns)))
              7000 None Sample.outage []
              {| clock := 5900;
                 collection :=
                   [Sample.job 2000 (Some 5000)
                      (Some (Sample.done 500 :: Sample.nineRuns))];
                 faults := [None; Some Sample.outage]; reported := [] |}
              eq_refl eq_refl eq_refl eq_refl Hfull)
    as (w' & d' & Hrun & _ & Hst & _ & _ & Hlog).
  exists w', d'. split; [exact Hrun|]. split; [exact Hst|].
  rewrite Hlog. vm_compute. reflexivity.
Defined.
